(** * Marketplace agent router: lifecycle and versioning contract

    A shallow embedding of [src/server/routers/lambda/market/agent.ts]:
    the zod input schemas, the tRPC procedure pipeline (authorization
    gate, input validation, resolver) and the seven resolvers of
    [agentRouter], each of which forwards one request to the Marketplace
    Gateway ([ctx.marketSDK.agents]) inside a try/catch that re-raises a
    [TRPCError].

    Asynchronous code is modelled by explicit state passing: an [Async]
    computation takes the world (the gateway's catalog, the trace of
    gateway calls, the debug log) and returns the new world together
    with the completion of the awaited promise. *)

From Stdlib Require Import ZArith List Bool.
From Stdlib Require Import Floats.SpecFloat.
From stdpp Require Import base strings list option gmap pretty.

Set Warnings "-register-all".
Open Scope string_scope.

(** ** JavaScript values *)

Module Js.

(** JSON-like values that travel as procedure inputs and gateway
    responses.  A number is an IEEE 754 double, kept as its
    specification-level value. *)
Inductive JsVal : Type :=
| VUndefined
| VNull
| VBool (b : bool)
| VNumber (x : spec_float)
| VString (s : string)
| VArray (items : list JsVal)
| VObject (props : list (string * JsVal)).

(** [obj[key]]: the first binding of [key], [undefined] when absent. *)
Fixpoint getProp (props : list (string * JsVal)) (key : string) : JsVal :=
  match props with
  | [] => VUndefined
  | (k, v) :: rest => if String.eqb k key then v else getProp rest key
  end.

(** [key in obj]. *)
Fixpoint hasProp (props : list (string * JsVal)) (key : string) : bool :=
  match props with
  | [] => false
  | (k, _) :: rest => String.eqb k key || hasProp rest key
  end.

(** An instance of [Error]: its name, message and stack, and the
    other properties set on it. *)
Record JsError : Type := mkErrorWith {
  err_name : string;
  err_message : string;
  err_stack : string;
  err_props : list (string * JsVal)
}.

(** An [Error] with no property of its own beside the three. *)
Definition mkError (name message stack : string) : JsError :=
  mkErrorWith name message stack [].

(** Anything a [throw] can carry: [e instanceof Error] holds exactly
    for [ThrownError]. *)
Inductive Thrown : Type :=
| ThrownError (e : JsError)
| ThrownValue (v : JsVal).

(** [a ?? b]: [b] exactly when [a] is [null] or [undefined]. *)
Definition nullish (v : JsVal) : bool :=
  match v with
  | VUndefined | VNull => true
  | _ => false
  end.

Definition coalesce (a b : JsVal) : JsVal :=
  if nullish a then b else a.

(** [input?.key] on a value that is an object or nullish. *)
Definition optChain (v : JsVal) (key : string) : JsVal :=
  match v with
  | VObject props => getProp props key
  | _ => VUndefined
  end.

End Js.
Export Js.

Notation "a ?? b" := (coalesce a b) (at level 45, right associativity).

(** ** The zod schema language used by the router *)

Module Zod.

Inductive ZodType : Type :=
| ZAny
| ZString
| ZNumber
| ZBoolean
| ZEnum (values : list string)
| ZArray (element : ZodType)
| ZRecord (valueType : ZodType)
| ZObject (shape : list (string * ZodType))
| ZOptional (inner : ZodType).

(** zod's own classification of a value ([getParsedType]); unlike
    [typeof] it separates [NaN], [null] and arrays. *)
Inductive ZodParsedType : Type :=
| PTundefined | PTnull | PTboolean | PTnumber | PTnan
| PTstring | PTarray | PTobject.

Definition getParsedType (data : JsVal) : ZodParsedType :=
  match data with
  | VUndefined => PTundefined
  | VNull => PTnull
  | VBool _ => PTboolean
  | VNumber S754_nan => PTnan
  | VNumber _ => PTnumber
  | VString _ => PTstring
  | VArray _ => PTarray
  | VObject _ => PTobject
  end.

Definition parsedTypeName (t : ZodParsedType) : string :=
  match t with
  | PTundefined => "undefined"
  | PTnull => "null"
  | PTboolean => "boolean"
  | PTnumber => "number"
  | PTnan => "nan"
  | PTstring => "string"
  | PTarray => "array"
  | PTobject => "object"
  end.

Inductive PathSegment : Type :=
| PKey (key : string)
| PIndex (index : nat).

Inductive ZodIssueCode : Type :=
| invalid_type
| invalid_enum_value.

(** What a failed check reports beside the path and the message.  The
    three forms differ in the order of their members, which is the
    order the check lists them in:
    [{code, expected, received}] for a type check,
    [{expected, received, code}] for the type check of an enum and
    [{received, code, options}] for the value check of an enum. *)
Inductive IssueDetail : Type :=
| TypeMismatch (expected received : string)
| EnumTypeMismatch (expected received : string)
| EnumValueMismatch (received : string) (options : list string).

Record ZodIssue : Type := mkIssue {
  issue_detail : IssueDetail;
  issue_path : list PathSegment;
  issue_message : string
}.

Definition issue_code (i : ZodIssue) : ZodIssueCode :=
  match issue_detail i with
  | TypeMismatch _ _ | EnumTypeMismatch _ _ => invalid_type
  | EnumValueMismatch _ _ => invalid_enum_value
  end.

(** ['a' | 'b' | 'c'], as zod prints the options of an enum. *)
Definition joinValues (values : list string) : string :=
  String.concat " | " (map (fun v => "'" +:+ v +:+ "'") values).

(** The default error map for [invalid_type]: a missing value is
    reported as [Required]. *)
Definition typeMessage (expected : string) (data : JsVal) : string :=
  match data with
  | VUndefined => "Required"
  | _ => "Expected " +:+ expected +:+ ", received "
           +:+ parsedTypeName (getParsedType data)
  end.

Definition invalidType (expected : string) (data : JsVal)
    (path : list PathSegment) : ZodIssue :=
  {| issue_detail :=
       TypeMismatch expected (parsedTypeName (getParsedType data));
     issue_path := path;
     issue_message := typeMessage expected data |}.

(** An enum given a value that is no string. *)
Definition invalidEnumType (values : list string) (data : JsVal)
    (path : list PathSegment) : ZodIssue :=
  {| issue_detail :=
       EnumTypeMismatch (joinValues values)
         (parsedTypeName (getParsedType data));
     issue_path := path;
     issue_message := typeMessage (joinValues values) data |}.

Definition invalidEnumValue (values : list string) (received : string)
    (path : list PathSegment) : ZodIssue :=
  {| issue_detail := EnumValueMismatch received values;
     issue_path := path;
     issue_message :=
       "Invalid enum value. Expected " +:+ joinValues values
         +:+ ", received '" +:+ received +:+ "'" |}.

Inductive ParseReturn : Type :=
| Valid (value : JsVal)
| Invalid (issues : list ZodIssue).

Definition issuesOf (r : ParseReturn) : list ZodIssue :=
  match r with
  | Valid _ => []
  | Invalid issues => issues
  end.

Definition isValid (r : ParseReturn) : bool :=
  match r with
  | Valid _ => true
  | Invalid _ => false
  end.

(** One parsed member of an object: its key, whether the member is
    written to the output even when its value is [undefined], and the
    outcome for its value. *)
Record ParsedPair : Type := mkPair {
  pair_key : string;
  pair_alwaysSet : bool;
  pair_result : ParseReturn
}.

(** Every member has been parsed before the outcomes are merged: the
    issues of all members are kept, in member order. *)
Definition mergeIssues (results : list ParseReturn) : list ZodIssue :=
  concat (map issuesOf results).

(** [typeof v === "undefined"] *)
Definition isUndefined (v : JsVal) : bool :=
  match v with
  | VUndefined => true
  | _ => false
  end.

(** [mergeObjectSync]: a member is written to the output unless its
    key is [__proto__], or its value is [undefined] and it is not
    marked as always set. *)
Fixpoint finalObject (pairs : list ParsedPair) : list (string * JsVal) :=
  match pairs with
  | [] => []
  | p :: rest =>
      match pair_result p with
      | Valid v =>
          if negb (String.eqb (pair_key p) "__proto__")
             && (negb (isUndefined v) || pair_alwaysSet p)
          then (pair_key p, v) :: finalObject rest
          else finalObject rest
      | Invalid _ => finalObject rest
      end
  end.

Definition mergeObject (pairs : list ParsedPair) : ParseReturn :=
  if forallb (fun p => isValid (pair_result p)) pairs
  then Valid (VObject (finalObject pairs))
  else Invalid (mergeIssues (map pair_result pairs)).

Fixpoint finalArray (results : list ParseReturn) : list JsVal :=
  match results with
  | [] => []
  | Valid v :: rest => v :: finalArray rest
  | Invalid _ :: rest => finalArray rest
  end.

Definition mergeArray (results : list ParseReturn) : ParseReturn :=
  if forallb isValid results
  then Valid (VArray (finalArray results))
  else Invalid (mergeIssues results).

(** [schema._parse]: the value found at [path] is checked against the
    schema.  Objects strip the keys that the shape does not name.
    [async] tells the two ways of running a schema apart, [parse] and
    [parseAsync]: they differ in how a record is merged, the
    asynchronous merge leaving out the mark that keeps a member whose
    value is [undefined]. *)
Fixpoint zparse (async : bool) (t : ZodType) (path : list PathSegment)
    (data : JsVal) : ParseReturn :=
  match t with
  | ZAny => Valid data
  | ZString =>
      match data with
      | VString _ => Valid data
      | _ => Invalid [invalidType "string" data path]
      end
  | ZNumber =>
      match getParsedType data with
      | PTnumber => Valid data
      | _ => Invalid [invalidType "number" data path]
      end
  | ZBoolean =>
      match data with
      | VBool _ => Valid data
      | _ => Invalid [invalidType "boolean" data path]
      end
  | ZEnum values =>
      match data with
      | VString s =>
          if existsb (String.eqb s) values
          then Valid data
          else Invalid [invalidEnumValue values s path]
      | _ => Invalid [invalidEnumType values data path]
      end
  | ZArray element =>
      match data with
      | VArray items =>
          mergeArray
            (imap (fun i x => zparse async element (path ++ [PIndex i]) x)
               items)
      | _ => Invalid [invalidType "array" data path]
      end
  | ZRecord valueType =>
      match data with
      | VObject props =>
          mergeObject
            (map (fun kv =>
                    mkPair (fst kv) (negb async)
                      (zparse async valueType (path ++ [PKey (fst kv)])
                         (snd kv)))
               props)
      | _ => Invalid [invalidType "object" data path]
      end
  | ZObject shape =>
      match data with
      | VObject props =>
          mergeObject
            ((fix members (fields : list (string * ZodType)) :=
                match fields with
                | [] => []
                | (key, fieldType) :: rest =>
                    mkPair key (hasProp props key)
                      (zparse async fieldType (path ++ [PKey key])
                         (getProp props key))
                    :: members rest
                end) shape)
      | _ => Invalid [invalidType "object" data path]
      end
  | ZOptional inner =>
      match data with
      | VUndefined => Valid VUndefined
      | _ => zparse async inner path data
      end
  end.

(** The members of an object schema, parsed against [props]. *)
Definition parseMembers (async : bool) (shape : list (string * ZodType))
    (path : list PathSegment) (props : list (string * JsVal))
    : list ParsedPair :=
  map (fun field =>
         mkPair (fst field) (hasProp props (fst field))
           (zparse async (snd field) (path ++ [PKey (fst field)])
              (getProp props (fst field))))
    shape.

(** [schema.safeParse(data)]. *)
Definition safeParse (t : ZodType) (data : JsVal) : ParseReturn :=
  zparse false t [] data.

(** [schema.parseAsync(data)], with a rejection as [Invalid]. *)
Definition parseAsync (t : ZodType) (data : JsVal) : ParseReturn :=
  zparse true t [] data.

(** *** The text of a [ZodError] *)

(** The double quote character. *)
Definition dquote : string :=
  String (Ascii.Ascii false true false false false true false false) EmptyString.

Definition newline : string :=
  String (Ascii.Ascii false true false true false false false false) EmptyString.

Definition backslash : string :=
  String (Ascii.Ascii false false true true true false true false) EmptyString.

(** The JSON values an issue is made of. *)
Inductive Json : Type :=
| JString (s : string)
| JNumber (n : nat)
| JArray (items : list Json)
| JObject (members : list (string * Json)).

Definition hexDigit (n : N) : string :=
  String.substring (N.to_nat n) 1 "0123456789abcdef".

(** One character inside a JSON text: the quote and the backslash are
    escaped, a control character takes its short form or the form
    [u00XX] after a backslash. *)
Definition escapeChar (c : Ascii.ascii) : string :=
  let n := Ascii.N_of_ascii c in
  if N.eqb n 34 then backslash +:+ dquote
  else if N.eqb n 92 then backslash +:+ backslash
  else if N.eqb n 8 then backslash +:+ "b"
  else if N.eqb n 9 then backslash +:+ "t"
  else if N.eqb n 10 then backslash +:+ "n"
  else if N.eqb n 12 then backslash +:+ "f"
  else if N.eqb n 13 then backslash +:+ "r"
  else if N.ltb n 32
       then backslash +:+ "u00" +:+ hexDigit (N.div n 16)
              +:+ hexDigit (N.modulo n 16)
       else String c EmptyString.

Fixpoint escapeString (s : string) : string :=
  match s with
  | EmptyString => EmptyString
  | String c rest => escapeChar c +:+ escapeString rest
  end.

Definition quoteJson (s : string) : string :=
  dquote +:+ escapeString s +:+ dquote.

(** [JSON.stringify(value, null, 2)] at the indentation [indent]. *)
Fixpoint stringify (indent : string) (value : Json) : string :=
  let inner := indent +:+ "  " in
  match value with
  | JString s => quoteJson s
  | JNumber n => pretty n
  | JArray [] => "[]"
  | JArray items =>
      "[" +:+ newline +:+ inner
        +:+ String.concat ("," +:+ newline +:+ inner)
              (map (stringify inner) items)
        +:+ newline +:+ indent +:+ "]"
  | JObject [] => "{}"
  | JObject members =>
      "{" +:+ newline +:+ inner
        +:+ String.concat ("," +:+ newline +:+ inner)
              ((fix each (ms : list (string * Json)) : list string :=
                  match ms with
                  | [] => []
                  | (key, v) :: rest =>
                      (quoteJson key +:+ ": " +:+ stringify inner v)
                      :: each rest
                  end) members)
        +:+ newline +:+ indent +:+ "}"
  end.

(** A whole number as a JavaScript number. *)
Definition numberOfNat (n : nat) : spec_float :=
  match n with
  | O => S754_zero false
  | S _ => S754_finite false (Pos.of_nat n) 0
  end.

(** A JSON value as the JavaScript value it stands for. *)
Fixpoint jsonValue (value : Json) : JsVal :=
  match value with
  | JString s => VString s
  | JNumber n => VNumber (numberOfNat n)
  | JArray items => VArray (map jsonValue items)
  | JObject members =>
      VObject
        ((fix each (ms : list (string * Json)) : list (string * JsVal) :=
            match ms with
            | [] => []
            | (key, v) :: rest => (key, jsonValue v) :: each rest
            end) members)
  end.

Definition pathSegmentJson (p : PathSegment) : Json :=
  match p with
  | PKey k => JString k
  | PIndex i => JNumber i
  end.

(** An issue as the object zod builds: what the check reported, then
    the path, then the message. *)
Definition issueJson (i : ZodIssue) : Json :=
  JObject
    (match issue_detail i with
     | TypeMismatch expected received =>
         [("code", JString "invalid_type");
          ("expected", JString expected);
          ("received", JString received)]
     | EnumTypeMismatch expected received =>
         [("expected", JString expected);
          ("received", JString received);
          ("code", JString "invalid_type")]
     | EnumValueMismatch received options =>
         [("received", JString received);
          ("code", JString "invalid_enum_value");
          ("options", JArray (map JString options))]
     end
     ++ [("path", JArray (map pathSegmentJson (issue_path i)));
         ("message", JString (issue_message i))])%list.

(** A [ZodError]: it holds the issues, and its message is
    [JSON.stringify(issues, null, 2)]. *)
Definition zodError (issues : list ZodIssue) : JsError :=
  mkErrorWith "ZodError"
    (stringify EmptyString (JArray (map issueJson issues)))
    EmptyString
    [("issues", jsonValue (JArray (map issueJson issues)))].

(** The issues an error object holds, as JavaScript objects. *)
Definition issuesOfError (e : JsError) : JsVal :=
  getProp (err_props e) "issues".

End Zod.
Export Zod.

(** ** The world of a request and asynchronous computations *)

(** Publication status of a catalog entry (the [status] enum of
    [createAgentSchema]). *)
Inductive AgentStatus : Type :=
| published
| unpublished
| archived
| deprecated.

Inductive Visibility : Type :=
| vis_public
| vis_private
| vis_internal.

(** What the marketplace keeps for one agent. *)
Record AgentEntry : Type := mkEntry {
  entry_owner : string;
  entry_name : string;
  entry_status : AgentStatus;
  entry_visibility : Visibility;
  entry_versions : list JsVal;
  entry_current : option nat
}.

(** The marketplace catalog, keyed by agent identifier. *)
Abbreviation Catalog := (gmap string AgentEntry).

Definition statusOf (c : Catalog) (identifier : string) : option AgentStatus :=
  entry_status <$> c !! identifier.

(** One call made on [ctx.marketSDK.agents]. *)
Record SdkCall : Type := mkCall {
  call_method : string;
  call_args : list JsVal
}.

Inductive LogArg : Type :=
| LogValue (v : JsVal)
| LogThrown (t : Thrown).

(** One line written through the [debug] logger. *)
Record LogLine : Type := mkLine {
  line_format : string;
  line_arg : LogArg
}.

Record World : Type := mkWorld {
  catalog : Catalog;
  sdkCalls : list SdkCall;
  debugLog : list LogLine
}.

(** How an awaited promise settles. *)
Inductive Completion (E A : Type) : Type :=
| Fulfilled (value : A)
| Rejected (reason : E).
Arguments Fulfilled {E A} value.
Arguments Rejected {E A} reason.

(** An asynchronous computation that throws values of type [E]. *)
Definition Async (E A : Type) : Type := World -> World * Completion E A.

Definition ret {E A} (a : A) : Async E A := fun w => (w, Fulfilled a).

Definition throw {E A} (e : E) : Async E A := fun w => (w, Rejected e).

Definition bind {E A B} (m : Async E A) (k : A -> Async E B) : Async E B :=
  fun w =>
    match m w with
    | (w', Fulfilled a) => k a w'
    | (w', Rejected e) => (w', Rejected e)
    end.

(** A promise that has already settled. *)
Definition settle {E A} (c : Completion E A) : Async E A := fun w => (w, c).

(** [try { body } catch (error) { handler }]. *)
Definition tryCatch {E E' A} (body : Async E A) (handler : E -> Async E' A)
    : Async E' A :=
  fun w =>
    match body w with
    | (w', Fulfilled a) => (w', Fulfilled a)
    | (w', Rejected e) => handler e w'
    end.

Declare Scope async_scope.
Delimit Scope async_scope with async.
Notation "x <- 'await' m ;; k" := (bind m (fun x => k))
  (at level 100, m at next level, k at level 200,
   right associativity) : async_scope.
Notation "m ;; k" := (bind m (fun _ => k))
  (at level 100, k at level 200, right associativity) : async_scope.

(** [log(format, arg)] of the module's [debug] instance. *)
Definition log {E} (format : string) (arg : LogArg) : Async E unit :=
  fun w =>
    (mkWorld (catalog w) (sdkCalls w) (debugLog w ++ [mkLine format arg]),
     Fulfilled tt).

(** ** The Marketplace Gateway *)

Module MarketSDK.

(** What a gateway method does to the catalog, given its argument,
    and how its promise settles.  The gateway is an external system:
    the router is verified against every such behaviour. *)
Definition Method : Type :=
  JsVal -> Catalog -> Catalog * Completion Thrown JsVal.

(** [marketSDK.agents]. *)
Record AgentService : Type := mkAgents {
  createAgent : Method;
  createAgentVersion : Method;
  deprecate : Method;
  getAgentDetail : Method;
  getOwnAgents : Method;
  publish : Method;
  unpublish : Method
}.

Record t : Type := mkSDK { agents : AgentService }.

(** Awaiting a gateway method: the call is traced under its method
    name, the catalog moves as the gateway decides. *)
Definition invoke (name : string) (method : Method) (arg : JsVal)
    : Async Thrown JsVal :=
  fun w =>
    let '(c, settled) := method arg (catalog w) in
    (mkWorld c (sdkCalls w ++ [mkCall name [arg]]) (debugLog w), settled).

(** The method names the router is allowed to call. *)
Definition methodSet : list string :=
  ["createAgent"; "createAgentVersion"; "deprecate"; "publish";
   "unpublish"; "getAgentDetail"; "getOwnAgents"].

End MarketSDK.

(** ** tRPC errors and procedures *)

Module Trpc.

Inductive TRPC_ERROR_CODE : Type :=
| PARSE_ERROR
| BAD_REQUEST
| INTERNAL_SERVER_ERROR
| NOT_IMPLEMENTED
| UNAUTHORIZED
| FORBIDDEN
| NOT_FOUND
| METHOD_NOT_SUPPORTED
| TIMEOUT
| CONFLICT
| PRECONDITION_FAILED
| PAYLOAD_TOO_LARGE
| UNPROCESSABLE_CONTENT
| TOO_MANY_REQUESTS
| CLIENT_CLOSED_REQUEST.

Definition codeName (c : TRPC_ERROR_CODE) : string :=
  match c with
  | PARSE_ERROR => "PARSE_ERROR"
  | BAD_REQUEST => "BAD_REQUEST"
  | INTERNAL_SERVER_ERROR => "INTERNAL_SERVER_ERROR"
  | NOT_IMPLEMENTED => "NOT_IMPLEMENTED"
  | UNAUTHORIZED => "UNAUTHORIZED"
  | FORBIDDEN => "FORBIDDEN"
  | NOT_FOUND => "NOT_FOUND"
  | METHOD_NOT_SUPPORTED => "METHOD_NOT_SUPPORTED"
  | TIMEOUT => "TIMEOUT"
  | CONFLICT => "CONFLICT"
  | PRECONDITION_FAILED => "PRECONDITION_FAILED"
  | PAYLOAD_TOO_LARGE => "PAYLOAD_TOO_LARGE"
  | UNPROCESSABLE_CONTENT => "UNPROCESSABLE_CONTENT"
  | TOO_MANY_REQUESTS => "TOO_MANY_REQUESTS"
  | CLIENT_CLOSED_REQUEST => "CLIENT_CLOSED_REQUEST"
  end.

(** What a [TRPCError] keeps as its cause. *)
Inductive Cause : Type :=
| CauseIs (e : JsError)
| CauseOfPrimitive (v : JsVal)
| CauseOfObject (props : list (string * JsVal)).

(** [getCauseFromUnknown]: an [Error] is kept as it is; [undefined] and
    [null] give no cause; a text, a number or a boolean is wrapped,
    [new Error(String(cause))]; an object that is no array becomes an
    [UnknownCauseError] that is given its properties; an array gives
    no cause. *)
Definition getCauseFromUnknown (cause : Thrown) : option Cause :=
  match cause with
  | ThrownError e => Some (CauseIs e)
  | ThrownValue VUndefined => None
  | ThrownValue VNull => None
  | ThrownValue (VArray _) => None
  | ThrownValue (VObject props) => Some (CauseOfObject props)
  | ThrownValue v => Some (CauseOfPrimitive v)
  end.

Record TRPCError : Type := mkTRPCError {
  cause : option Cause;
  code : TRPC_ERROR_CODE;
  message : string
}.

(** [new TRPCError({ cause, code, message })], as every catch block of
    the router calls it: the message is the one that is passed, also
    when it is empty ([opts.message ?? ...]). *)
Definition newTRPCError (cause : Thrown) (code : TRPC_ERROR_CODE)
    (message : string) : TRPCError :=
  mkTRPCError (getCauseFromUnknown cause) code message.

(** [new TRPCError({ code, cause })] for a cause that is an [Error], as
    the input parser calls it: the message is the cause's. *)
Definition newTRPCErrorCausedBy (cause : JsError) (code : TRPC_ERROR_CODE)
    : TRPCError :=
  mkTRPCError (Some (CauseIs cause)) code (err_message cause).

(** [new TRPCError({ code })]: the message is the code. *)
Definition newTRPCErrorOfCode (code : TRPC_ERROR_CODE) : TRPCError :=
  mkTRPCError None code (codeName code).

(** The request as the transport hands it over. *)
Record Request : Type := mkRequest {
  session : option string;
  rawInput : JsVal
}.

(** The context a resolver of [agentProcedure] runs in. *)
Record Context : Type := mkContext {
  userId : string;
  marketSDK : MarketSDK.t
}.

Inductive ProcedureKind : Type := mutation | query.

Record Procedure : Type := mkProcedure {
  proc_kind : ProcedureKind;
  proc_input : ZodType;
  proc_resolver : JsVal -> Context -> Async TRPCError JsVal
}.

(** [.input(schema)]: the raw input is run through
    [schema.parseAsync]; a failure is thrown as [BAD_REQUEST] with the
    [ZodError] as cause. *)
Definition parseInput (schema : ZodType) (raw : JsVal)
    : Async TRPCError JsVal :=
  match parseAsync schema raw with
  | Valid input => ret input
  | Invalid issues => throw (newTRPCErrorCausedBy (zodError issues) BAD_REQUEST)
  end.

End Trpc.
Export Trpc.

(** ** Procedures: the input parser and the authorization gate *)

(** [.input(schema).mutation(resolver)]: the input parser, then the
    resolver. *)
Definition runValidated (p : Procedure) (raw : JsVal) (ctx : Context)
    : Async TRPCError JsVal :=
  (input <- await parseInput (proc_input p) raw ;;
   proc_resolver p input ctx)%async.

Section Gate.

(** The SDK instance bound to a user's marketplace session. *)
Variable connect : string -> MarketSDK.t.

(** A call made by an authenticated user: the resolver's context holds
    the user's identity and the user's SDK instance. *)
Definition callAs (user : string) (p : Procedure) (raw : JsVal)
    : Async TRPCError JsVal :=
  runValidated p raw (mkContext user (connect user)).

(** Modelled from the spec: [authedProcedure] of [@/libs/trpc/lambda],
    which is not among the sources.  Section 4.2: the gate resolves
    the caller's session into an authenticated identity and fails with
    an Unauthenticated error when no valid session exists. *)
Definition authedProcedure (req : Request) : Async TRPCError string :=
  match session req with
  | Some user => ret user
  | None => throw (newTRPCErrorOfCode UNAUTHORIZED)
  end.

(** [procedure.use(middleware)]: the middleware runs on what the
    procedure built so far hands over. *)
Definition use {A B C} (p : A -> Async TRPCError B)
    (middleware : B -> Async TRPCError C) : A -> Async TRPCError C :=
  fun a => bind (p a) middleware.

(** Modelled from the spec: the middleware [serverDatabase] of
    [@/libs/trpc/lambda/middleware], which is not among the sources.
    Section 4.2 gives it no failure of its own and no effect on the
    catalog: it passes the identity on. *)
Definition serverDatabase (user : string) : Async TRPCError string :=
  ret user.

(** Modelled from the spec: the middleware [marketUserInfo] of
    [@/libs/trpc/lambda/middleware], which is not among the sources.
    Section 4.2: it resolves the marketplace account of the identity
    and passes it on. *)
Definition marketUserInfo (user : string) : Async TRPCError string :=
  ret user.

(** Modelled from the spec: the middleware [marketSDK] of
    [@/libs/trpc/lambda/middleware], which is not among the sources.
    Section 4.2: it attaches the resolved marketplace session object
    to the context of this one call. *)
Definition marketSDK_middleware (user : string) : Async TRPCError Context :=
  ret (mkContext user (connect user)).

(** [authedProcedure.use(serverDatabase).use(marketUserInfo).use(marketSDK)] *)
Definition agentProcedure : Request -> Async TRPCError Context :=
  use (use (use authedProcedure serverDatabase) marketUserInfo)
    marketSDK_middleware.

(** One call of a procedure built on [agentProcedure]: the gate, then
    the input parser, then the resolver. *)
Definition callProcedure (p : Procedure) (req : Request)
    : Async TRPCError JsVal :=
  (ctx <- await agentProcedure req ;;
   runValidated p (rawInput req) ctx)%async.

End Gate.

(** ** The router *)

(** [input.key] inside a resolver: reading a property of [undefined] or
    [null] throws a [TypeError]. *)
Definition readMember (v : JsVal) (key : string) : Completion Thrown JsVal :=
  match v with
  | VObject props => Fulfilled (getProp props key)
  | VUndefined =>
      Rejected (ThrownError
                  (mkError "TypeError"
                     ("Cannot read properties of undefined (reading '"
                        +:+ key +:+ "')") EmptyString))
  | VNull =>
      Rejected (ThrownError
                  (mkError "TypeError"
                     ("Cannot read properties of null (reading '"
                        +:+ key +:+ "')") EmptyString))
  | _ => Fulfilled VUndefined
  end.

Definition member (v : JsVal) (key : string) : Async Thrown JsVal :=
  settle (readMember v key).

(** [error instanceof Error ? error.message : fallback] *)
Definition messageOr (error : Thrown) (fallback : string) : string :=
  match error with
  | ThrownError e => err_message e
  | ThrownValue _ => fallback
  end.

Module agentRouter.

Import MarketSDK.
Local Open Scope async_scope.

Definition createAgentSchema : ZodType :=
  ZObject
    [("homepage", ZOptional ZString);
     ("identifier", ZString);
     ("isFeatured", ZOptional ZBoolean);
     ("name", ZString);
     ("status",
      ZOptional (ZEnum ["published"; "unpublished"; "archived"; "deprecated"]));
     ("tokenUsage", ZOptional ZNumber);
     ("visibility", ZOptional (ZEnum ["public"; "private"; "internal"]))].

Definition createAgentVersionSchema : ZodType :=
  ZObject
    [("a2aProtocolVersion", ZOptional ZString);
     ("avatar", ZOptional ZString);
     ("category", ZOptional ZString);
     ("changelog", ZOptional ZString);
     ("config", ZOptional (ZRecord ZAny));
     ("defaultInputModes", ZOptional (ZArray ZString));
     ("defaultOutputModes", ZOptional (ZArray ZString));
     ("description", ZOptional ZString);
     ("documentationUrl", ZOptional ZString);
     ("extensions", ZOptional (ZArray (ZRecord ZAny)));
     ("hasPushNotifications", ZOptional ZBoolean);
     ("hasStateTransitionHistory", ZOptional ZBoolean);
     ("hasStreaming", ZOptional ZBoolean);
     ("identifier", ZString);
     ("interfaces", ZOptional (ZArray (ZRecord ZAny)));
     ("name", ZOptional ZString);
     ("preferredTransport", ZOptional ZString);
     ("providerId", ZOptional ZNumber);
     ("securityRequirements", ZOptional (ZArray (ZRecord ZAny)));
     ("securitySchemes", ZOptional (ZRecord ZAny));
     ("setAsCurrent", ZOptional ZBoolean);
     ("summary", ZOptional ZString);
     ("supportsAuthenticatedExtendedCard", ZOptional ZBoolean);
     ("tokenUsage", ZOptional ZNumber);
     ("url", ZOptional ZString)].

Definition paginationSchema : ZodType :=
  ZObject [("page", ZOptional ZNumber); ("pageSize", ZOptional ZNumber)].

(** [z.object({ identifier: z.string() })] *)
Definition identifierSchema : ZodType :=
  ZObject [("identifier", ZString)].

Definition success : JsVal := VObject [("success", VBool true)].

Definition createAgent : Procedure :=
  mkProcedure mutation createAgentSchema (fun input ctx =>
    log "createAgent input: %O" (LogValue input) ;;
    tryCatch
      (response <- await
         invoke "createAgent" (createAgent (agents (marketSDK ctx))) input ;;
       ret response)
      (fun error =>
         log "Error creating agent: %O" (LogThrown error) ;;
         throw (newTRPCError error INTERNAL_SERVER_ERROR
                  (messageOr error "Failed to create agent")))).

Definition createAgentVersion : Procedure :=
  mkProcedure mutation createAgentVersionSchema (fun input ctx =>
    log "createAgentVersion input: %O" (LogValue input) ;;
    tryCatch
      (response <- await
         invoke "createAgentVersion"
           (createAgentVersion (agents (marketSDK ctx))) input ;;
       ret response)
      (fun error =>
         log "Error creating agent version: %O" (LogThrown error) ;;
         throw (newTRPCError error INTERNAL_SERVER_ERROR
                  (messageOr error "Failed to create agent version")))).

Definition deprecateAgent : Procedure :=
  mkProcedure mutation identifierSchema (fun input ctx =>
    log "deprecateAgent input: %O" (LogValue input) ;;
    tryCatch
      (identifier <- await member input "identifier" ;;
       response <- await
         invoke "deprecate" (deprecate (agents (marketSDK ctx))) identifier ;;
       ret (response ?? success))
      (fun error =>
         log "Error deprecating agent: %O" (LogThrown error) ;;
         throw (newTRPCError error INTERNAL_SERVER_ERROR
                  (messageOr error "Failed to deprecate agent")))).

Definition getAgentDetail : Procedure :=
  mkProcedure query identifierSchema (fun input ctx =>
    log "getAgentDetail input: %O" (LogValue input) ;;
    tryCatch
      (identifier <- await member input "identifier" ;;
       response <- await
         invoke "getAgentDetail" (getAgentDetail (agents (marketSDK ctx)))
           identifier ;;
       ret response)
      (fun error =>
         log "Error getting agent detail: %O" (LogThrown error) ;;
         throw (newTRPCError error INTERNAL_SERVER_ERROR
                  (messageOr error "Failed to get agent detail")))).

Definition getOwnAgents : Procedure :=
  mkProcedure query (ZOptional paginationSchema) (fun input ctx =>
    log "getOwnAgents input: %O" (LogValue input) ;;
    tryCatch
      (response <- await
         invoke "getOwnAgents" (getOwnAgents (agents (marketSDK ctx)))
           (VObject [("page", optChain input "page");
                     ("pageSize", optChain input "pageSize")]) ;;
       ret response)
      (fun error =>
         log "Error getting own agents: %O" (LogThrown error) ;;
         throw (newTRPCError error INTERNAL_SERVER_ERROR
                  (messageOr error "Failed to get own agents")))).

Definition publishAgent : Procedure :=
  mkProcedure mutation identifierSchema (fun input ctx =>
    log "publishAgent input: %O" (LogValue input) ;;
    tryCatch
      (identifier <- await member input "identifier" ;;
       response <- await
         invoke "publish" (publish (agents (marketSDK ctx))) identifier ;;
       ret (response ?? success))
      (fun error =>
         log "Error publishing agent: %O" (LogThrown error) ;;
         throw (newTRPCError error INTERNAL_SERVER_ERROR
                  (messageOr error "Failed to publish agent")))).

Definition unpublishAgent : Procedure :=
  mkProcedure mutation identifierSchema (fun input ctx =>
    log "unpublishAgent input: %O" (LogValue input) ;;
    tryCatch
      (identifier <- await member input "identifier" ;;
       response <- await
         invoke "unpublish" (unpublish (agents (marketSDK ctx))) identifier ;;
       ret (response ?? success))
      (fun error =>
         log "Error unpublishing agent: %O" (LogThrown error) ;;
         throw (newTRPCError error INTERNAL_SERVER_ERROR
                  (messageOr error "Failed to unpublish agent")))).

(** The procedures of [agentRouter], by name. *)
Inductive Operation : Type :=
| OpCreateAgent
| OpCreateAgentVersion
| OpDeprecateAgent
| OpGetAgentDetail
| OpGetOwnAgents
| OpPublishAgent
| OpUnpublishAgent.

Definition procedure (op : Operation) : Procedure :=
  match op with
  | OpCreateAgent => createAgent
  | OpCreateAgentVersion => createAgentVersion
  | OpDeprecateAgent => deprecateAgent
  | OpGetAgentDetail => getAgentDetail
  | OpGetOwnAgents => getOwnAgents
  | OpPublishAgent => publishAgent
  | OpUnpublishAgent => unpublishAgent
  end.

Definition isTransition (op : Operation) : bool :=
  match op with
  | OpDeprecateAgent | OpPublishAgent | OpUnpublishAgent => true
  | _ => false
  end.

End agentRouter.

(** ** A gateway that follows the lifecycle rules *)

(** The error taxonomy of the contract. *)
Inductive ErrorKind : Type :=
| ValidationError
| Unauthenticated
| NotFound
| Conflict
| Forbidden
| GatewayError.

Definition kindName (k : ErrorKind) : string :=
  match k with
  | ValidationError => "ValidationError"
  | Unauthenticated => "Unauthenticated"
  | NotFound => "NotFound"
  | Conflict => "Conflict"
  | Forbidden => "Forbidden"
  | GatewayError => "GatewayError"
  end.

(** Modelled from the spec: section 7 names the kinds; an error raised
    by the gateway is taken to carry its kind as its name, and an error
    of no known name is a plain gateway failure. *)
Definition kindOf (e : JsError) : ErrorKind :=
  if String.eqb (err_name e) "ValidationError" then ValidationError
  else if String.eqb (err_name e) "Unauthenticated" then Unauthenticated
  else if String.eqb (err_name e) "NotFound" then NotFound
  else if String.eqb (err_name e) "Conflict" then Conflict
  else if String.eqb (err_name e) "Forbidden" then Forbidden
  else GatewayError.

Module ReferenceGateway.

Definition statusName (s : AgentStatus) : string :=
  match s with
  | published => "published"
  | unpublished => "unpublished"
  | archived => "archived"
  | deprecated => "deprecated"
  end.

Definition visibilityName (v : Visibility) : string :=
  match v with
  | vis_public => "public"
  | vis_private => "private"
  | vis_internal => "internal"
  end.

Definition statusFrom (v : JsVal) : AgentStatus :=
  match v with
  | VString "published" => published
  | VString "archived" => archived
  | VString "deprecated" => deprecated
  | _ => unpublished
  end.

Definition visibilityFrom (v : JsVal) : Visibility :=
  match v with
  | VString "private" => vis_private
  | VString "internal" => vis_internal
  | _ => vis_public
  end.

Definition reject (kind : ErrorKind) (message : string)
    : Completion Thrown JsVal :=
  Rejected (ThrownError (mkError (kindName kind) message EmptyString)).

Definition agentJson (identifier : string) (e : AgentEntry) : JsVal :=
  VObject
    [("identifier", VString identifier);
     ("name", VString (entry_name e));
     ("ownerId", VString (entry_owner e));
     ("status", VString (statusName (entry_status e)));
     ("visibility", VString (visibilityName (entry_visibility e)))].

Definition withStatus (s : AgentStatus) (e : AgentEntry) : AgentEntry :=
  mkEntry (entry_owner e) (entry_name e) s (entry_visibility e)
    (entry_versions e) (entry_current e).

Definition addVersion (version : JsVal) (setAsCurrent : bool)
    (e : AgentEntry) : AgentEntry :=
  mkEntry (entry_owner e) (entry_name e) (entry_status e)
    (entry_visibility e) (entry_versions e ++ [version])
    (if setAsCurrent then Some (length (entry_versions e))
     else entry_current e).

Section ForCaller.

Variable caller : string.

(** Modelled from the spec: the Marketplace Gateway is an external
    system.  Section 4.3: [createAgent] fails with Conflict when the
    identifier exists; the caller becomes the owner. *)
Definition createAgent : MarketSDK.Method := fun input c =>
  match input with
  | VObject props =>
      match getProp props "identifier", getProp props "name" with
      | VString identifier, VString name =>
          match c !! identifier with
          | Some _ => (c, reject Conflict "agent already exists")
          | None =>
              let e :=
                mkEntry caller name (statusFrom (getProp props "status"))
                  (visibilityFrom (getProp props "visibility")) [] None in
              (<[identifier := e]> c, Fulfilled (agentJson identifier e))
          end
      | _, _ => (c, reject ValidationError "invalid agent")
      end
  | _ => (c, reject ValidationError "invalid agent")
  end.

(** Modelled from the spec: section 4.3, [createAgentVersion] fails
    with NotFound for an unknown identifier and never creates the
    agent; with [setAsCurrent] the new version becomes the only
    current one. *)
Definition createAgentVersion : MarketSDK.Method := fun input c =>
  match input with
  | VObject props =>
      match getProp props "identifier" with
      | VString identifier =>
          match c !! identifier with
          | None => (c, reject NotFound "agent not found")
          | Some e =>
              let current :=
                match getProp props "setAsCurrent" with
                | VBool true => true
                | _ => false
                end in
              (<[identifier := addVersion input current e]> c,
               Fulfilled
                 (VObject [("identifier", VString identifier);
                           ("isCurrent", VBool current)]))
          end
      | _ => (c, reject ValidationError "invalid version")
      end
  | _ => (c, reject ValidationError "invalid version")
  end.

(** Modelled from the spec: section 4.3, the transition table.
    [deprecate] succeeds from any status; [publish] and [unpublish]
    fail with Conflict on a deprecated agent; an unknown identifier
    is NotFound.  A transition answers with no body. *)
Definition deprecate : MarketSDK.Method := fun identifier c =>
  match identifier with
  | VString id =>
      match c !! id with
      | None => (c, reject NotFound "agent not found")
      | Some e => (<[id := withStatus deprecated e]> c, Fulfilled VUndefined)
      end
  | _ => (c, reject ValidationError "invalid identifier")
  end.

Definition transition (target : AgentStatus) : MarketSDK.Method :=
  fun identifier c =>
    match identifier with
    | VString id =>
        match c !! id with
        | None => (c, reject NotFound "agent not found")
        | Some e =>
            match entry_status e with
            | deprecated => (c, reject Conflict "agent is deprecated")
            | _ => (<[id := withStatus target e]> c, Fulfilled VUndefined)
            end
        end
    | _ => (c, reject ValidationError "invalid identifier")
    end.

Definition publish : MarketSDK.Method := transition published.

Definition unpublish : MarketSDK.Method := transition unpublished.

(** Modelled from the spec: section 4.3, reading a private or
    internal agent of another account is Forbidden. *)
Definition getAgentDetail : MarketSDK.Method := fun identifier c =>
  match identifier with
  | VString id =>
      match c !! id with
      | None => (c, reject NotFound "agent not found")
      | Some e =>
          match entry_visibility e with
          | vis_public => (c, Fulfilled (agentJson id e))
          | _ =>
              if String.eqb (entry_owner e) caller
              then (c, Fulfilled (agentJson id e))
              else (c, reject Forbidden "agent is not visible")
          end
      end
  | _ => (c, reject ValidationError "invalid identifier")
  end.

(** Modelled from the spec: section 4.3, only the caller's agents,
    in the catalog's key order. *)
Definition getOwnAgents : MarketSDK.Method := fun _ c =>
  (c,
   Fulfilled
     (VObject
        [("items",
          VArray
            (map (fun kv => agentJson (fst kv) (snd kv))
               (filter (fun kv => entry_owner (snd kv) = caller)
                  (map_to_list c))))])).

Definition sdk : MarketSDK.t :=
  MarketSDK.mkSDK
    (MarketSDK.mkAgents createAgent createAgentVersion deprecate
       getAgentDetail getOwnAgents publish unpublish).

End ForCaller.

End ReferenceGateway.

(** ** The shape shared by the seven resolvers *)

Module Dispatch.

Import agentRouter.

(** The gateway method each operation forwards to. *)
Definition gatewayMethodName (op : Operation) : string :=
  match op with
  | OpCreateAgent => "createAgent"
  | OpCreateAgentVersion => "createAgentVersion"
  | OpDeprecateAgent => "deprecate"
  | OpGetAgentDetail => "getAgentDetail"
  | OpGetOwnAgents => "getOwnAgents"
  | OpPublishAgent => "publish"
  | OpUnpublishAgent => "unpublish"
  end.

Definition gatewayMethod (op : Operation)
    : MarketSDK.AgentService -> MarketSDK.Method :=
  match op with
  | OpCreateAgent => MarketSDK.createAgent
  | OpCreateAgentVersion => MarketSDK.createAgentVersion
  | OpDeprecateAgent => MarketSDK.deprecate
  | OpGetAgentDetail => MarketSDK.getAgentDetail
  | OpGetOwnAgents => MarketSDK.getOwnAgents
  | OpPublishAgent => MarketSDK.publish
  | OpUnpublishAgent => MarketSDK.unpublish
  end.

(** What each resolver passes to the gateway. *)
Definition argumentOf (op : Operation) (input : JsVal)
    : Completion Thrown JsVal :=
  match op with
  | OpCreateAgent | OpCreateAgentVersion => Fulfilled input
  | OpGetOwnAgents =>
      Fulfilled (VObject [("page", optChain input "page");
                          ("pageSize", optChain input "pageSize")])
  | OpDeprecateAgent | OpGetAgentDetail | OpPublishAgent
  | OpUnpublishAgent => readMember input "identifier"
  end.

(** The generic message of each operation. *)
Definition fallbackMessage (op : Operation) : string :=
  match op with
  | OpCreateAgent => "Failed to create agent"
  | OpCreateAgentVersion => "Failed to create agent version"
  | OpDeprecateAgent => "Failed to deprecate agent"
  | OpGetAgentDetail => "Failed to get agent detail"
  | OpGetOwnAgents => "Failed to get own agents"
  | OpPublishAgent => "Failed to publish agent"
  | OpUnpublishAgent => "Failed to unpublish agent"
  end.

Definition inputLogFormat (op : Operation) : string :=
  match op with
  | OpCreateAgent => "createAgent input: %O"
  | OpCreateAgentVersion => "createAgentVersion input: %O"
  | OpDeprecateAgent => "deprecateAgent input: %O"
  | OpGetAgentDetail => "getAgentDetail input: %O"
  | OpGetOwnAgents => "getOwnAgents input: %O"
  | OpPublishAgent => "publishAgent input: %O"
  | OpUnpublishAgent => "unpublishAgent input: %O"
  end.

Definition errorLogFormat (op : Operation) : string :=
  match op with
  | OpCreateAgent => "Error creating agent: %O"
  | OpCreateAgentVersion => "Error creating agent version: %O"
  | OpDeprecateAgent => "Error deprecating agent: %O"
  | OpGetAgentDetail => "Error getting agent detail: %O"
  | OpGetOwnAgents => "Error getting own agents: %O"
  | OpPublishAgent => "Error publishing agent: %O"
  | OpUnpublishAgent => "Error unpublishing agent: %O"
  end.

(** The error a catch block re-raises for the thrown value [e]. *)
Definition wrapError (op : Operation) (e : Thrown) : TRPCError :=
  mkTRPCError (getCauseFromUnknown e) INTERNAL_SERVER_ERROR
    (messageOr e (fallbackMessage op)).

(** What a resolver returns for a gateway response. *)
Definition returned (op : Operation) (response : JsVal) : JsVal :=
  if isTransition op then response ?? success else response.

Definition logged (w : World) (format : string) (arg : LogArg) : World :=
  mkWorld (catalog w) (sdkCalls w) (debugLog w ++ [mkLine format arg]).

(** The world and the completion a resolver ends with. *)
Definition settles (op : Operation) (input : JsVal) (ctx : Context)
    (w : World) : World * Completion TRPCError JsVal :=
  let w1 := logged w (inputLogFormat op) (LogValue input) in
  match argumentOf op input with
  | Rejected e =>
      (logged w1 (errorLogFormat op) (LogThrown e), Rejected (wrapError op e))
  | Fulfilled arg =>
      let '(c, settled) :=
        gatewayMethod op (MarketSDK.agents (marketSDK ctx)) arg (catalog w) in
      let w2 :=
        mkWorld c (sdkCalls w ++ [mkCall (gatewayMethodName op) [arg]])
          (debugLog w1) in
      match settled with
      | Fulfilled response => (w2, Fulfilled (returned op response))
      | Rejected e =>
          (logged w2 (errorLogFormat op) (LogThrown e),
           Rejected (wrapError op e))
      end
  end.

End Dispatch.
Import Dispatch.

(** ** Vocabulary of the properties *)

(** The members a procedure's input schema declares. *)
Definition shapeOf (t : ZodType) : list (string * ZodType) :=
  match t with
  | ZObject shape => shape
  | ZOptional (ZObject shape) => shape
  | _ => []
  end.

(** What [createAgentSchema] accepts, spelled out field by field. *)
Module Accepts.

Definition isString (v : JsVal) : bool :=
  match v with VString _ => true | _ => false end.

Definition isNonEmptyString (v : JsVal) : bool :=
  match v with
  | VString s => negb (String.eqb s "")
  | _ => false
  end.

Definition isBoolean (v : JsVal) : bool :=
  match v with VBool _ => true | _ => false end.

(** A number other than [NaN]. *)
Definition isNumber (v : JsVal) : bool :=
  match v with
  | VNumber S754_nan => false
  | VNumber _ => true
  | _ => false
  end.

Definition isOneOf (values : list string) (v : JsVal) : bool :=
  match v with
  | VString s => existsb (String.eqb s) values
  | _ => false
  end.

(** An optional field: absent (or [undefined]), or of its type. *)
Definition absentOr (check : JsVal -> bool) (v : JsVal) : bool :=
  match v with
  | VUndefined => true
  | _ => check v
  end.

(** The inputs [createAgentSchema] lets through: an object whose
    [identifier] and [name] are strings and whose optional fields,
    when present, have their declared types. *)
Definition createAgentAccepts (raw : JsVal) : bool :=
  match raw with
  | VObject props =>
      absentOr isString (getProp props "homepage")
      && isString (getProp props "identifier")
      && absentOr isBoolean (getProp props "isFeatured")
      && isString (getProp props "name")
      && absentOr
           (isOneOf ["published"; "unpublished"; "archived"; "deprecated"])
           (getProp props "status")
      && absentOr isNumber (getProp props "tokenUsage")
      && absentOr (isOneOf ["public"; "private"; "internal"])
           (getProp props "visibility")
  | _ => false
  end.

End Accepts.
Import Accepts.

(** ** Gateways used to exercise the router *)

Module StubGateway.

(** A gateway that settles every call the same way and leaves the
    catalog alone. *)
Definition answering (answer : Completion Thrown JsVal) : MarketSDK.t :=
  let method : MarketSDK.Method := fun _ c => (c, answer) in
  MarketSDK.mkSDK
    (MarketSDK.mkAgents method method method method method method method).

Definition context (answer : Completion Thrown JsVal) : Context :=
  mkContext "alice" (answering answer).

End StubGateway.

Definition emptyWorld : World := mkWorld ∅ [] [].

Definition identifierInput (identifier : string) : JsVal :=
  VObject [("identifier", VString identifier)].

(** ** Results and errors as the caller sees them *)

(** A [{ success: boolean }] confirmation. *)
Definition isConfirmation (v : JsVal) : bool :=
  match v with
  | VObject props => isBoolean (getProp props "success")
  | _ => false
  end.

(** An unsuccessful parse names at least one issue, and each issue lies
    at or below the path that was parsed and carries a reason. *)
Definition wellReported (path : list PathSegment) (issues : list ZodIssue)
    : Prop :=
  issues <> [] /\
  Forall (fun i => path `prefix_of` issue_path i /\ issue_message i <> "")
    issues.

Definition reportsWell (path : list PathSegment) (r : ParseReturn) : Prop :=
  forall issues, r = Invalid issues -> wellReported path issues.

(** ** Sequences of calls and the rule left to the gateway *)

Import agentRouter.

(** One call on the router by an authenticated user. *)
Record Invocation : Type := mkInvocation {
  inv_op : Operation;
  inv_user : string;
  inv_input : JsVal
}.

Section Lifecycle.

Variable connect : string -> MarketSDK.t.

(** What the router leaves to the gateway: a successful [deprecate]
    leaves the agent deprecated, [publish] and [unpublish] of a
    deprecated agent are refused with a Conflict error, and no method
    moves an agent out of [deprecated]. *)
Record EnforcesTerminalDeprecation : Prop := mkEnforces {
  deprecate_deprecates :
    forall user identifier c c' response,
      MarketSDK.deprecate (MarketSDK.agents (connect user))
        (VString identifier) c
      = (c', Fulfilled response) ->
      statusOf c' identifier = Some deprecated;
  transition_refused :
    forall op user identifier c,
      op = OpPublishAgent \/ op = OpUnpublishAgent ->
      statusOf c identifier = Some deprecated ->
      exists c' e,
        gatewayMethod op (MarketSDK.agents (connect user))
          (VString identifier) c
        = (c', Rejected (ThrownError e)) /\
        kindOf e = Conflict;
  deprecated_stays :
    forall op user arg identifier c,
      statusOf c identifier = Some deprecated ->
      statusOf
        (fst (gatewayMethod op (MarketSDK.agents (connect user)) arg c))
        identifier
      = Some deprecated
}.

(** A sequence of calls on the router, one after the other. *)
Fixpoint runAll (calls : list Invocation) (w : World) : World :=
  match calls with
  | [] => w
  | call :: rest =>
      runAll rest
        (fst (callAs connect (inv_user call) (procedure (inv_op call))
                (inv_input call) w))
  end.

End Lifecycle.

(** ** Induction over schemas *)

Section ZodInduction.

Variable P : ZodType -> Prop.
Hypothesis HAny : P ZAny.
Hypothesis HString : P ZString.
Hypothesis HNumber : P ZNumber.
Hypothesis HBoolean : P ZBoolean.
Hypothesis HEnum : forall values, P (ZEnum values).
Hypothesis HArray : forall element, P element -> P (ZArray element).
Hypothesis HRecord : forall valueType, P valueType -> P (ZRecord valueType).
Hypothesis HObject :
  forall shape, Forall (fun field => P (snd field)) shape -> P (ZObject shape).
Hypothesis HOptional : forall inner, P inner -> P (ZOptional inner).

(** Induction over schemas, with the members of an object schema as
    premises. *)
Fixpoint ZodType_shape_ind (t : ZodType) : P t :=
  match t with
  | ZAny => HAny
  | ZString => HString
  | ZNumber => HNumber
  | ZBoolean => HBoolean
  | ZEnum values => HEnum values
  | ZArray element => HArray element (ZodType_shape_ind element)
  | ZRecord valueType => HRecord valueType (ZodType_shape_ind valueType)
  | ZObject shape =>
      HObject shape
        ((fix members (fields : list (string * ZodType))
            : Forall (fun field => P (snd field)) fields :=
            match fields with
            | [] => List.Forall_nil _
            | (key, fieldType) :: rest =>
                List.Forall_cons _ (key, fieldType) rest
                  (ZodType_shape_ind fieldType) (members rest)
            end) shape)
  | ZOptional inner => HOptional inner (ZodType_shape_ind inner)
  end.

End ZodInduction.

(** ** Vocabulary of the further properties *)

Definition isFulfilled {E A} (c : Completion E A) : bool :=
  match c with
  | Fulfilled _ => true
  | Rejected _ => false
  end.

(** The operation's schema lets the raw input through. *)
Definition accepted (op : Operation) (raw : JsVal) : bool :=
  isValid (safeParse (proc_input (procedure op)) raw).

(** The operations whose resolver reads [input.identifier]. *)
Definition readsIdentifier (op : Operation) : bool :=
  match op with
  | OpDeprecateAgent | OpGetAgentDetail | OpPublishAgent
  | OpUnpublishAgent => true
  | _ => false
  end.

(** The identifier a raw input carries, when it is an object whose
    [identifier] is a string. *)
Definition identifierOf (raw : JsVal) : option string :=
  match raw with
  | VObject props =>
      match getProp props "identifier" with
      | VString identifier => Some identifier
      | _ => None
      end
  | _ => None
  end.

(** A schema with no object shape inside: nothing in it strips keys. *)
Fixpoint shapeless (t : ZodType) : bool :=
  match t with
  | ZObject _ => false
  | ZArray element => shapeless element
  | ZRecord valueType => shapeless valueType
  | ZOptional inner => shapeless inner
  | _ => true
  end.

(** A schema with no record inside either: it hands an accepted value
    back as it came. *)
Fixpoint recordFree (t : ZodType) : bool :=
  match t with
  | ZObject _ | ZRecord _ => false
  | ZArray element => recordFree element
  | ZOptional inner => recordFree inner
  | _ => true
  end.

(** What a record leaves of its entries: an entry named [__proto__] is
    left out, and in the asynchronous run also an entry whose value is
    [undefined]. *)
Fixpoint keptEntries (async : bool) (keep : JsVal -> JsVal)
    (props : list (string * JsVal)) : list (string * JsVal) :=
  match props with
  | [] => []
  | (key, x) :: rest =>
      if negb (String.eqb key "__proto__")
         && (negb (isUndefined (keep x)) || negb async)
      then (key, keep x) :: keptEntries async keep rest
      else keptEntries async keep rest
  end.

(** The value a shapeless schema makes of a value it accepts. *)
Fixpoint kept (async : bool) (t : ZodType) (v : JsVal) : JsVal :=
  match t with
  | ZArray element =>
      match v with
      | VArray items => VArray (map (kept async element) items)
      | _ => v
      end
  | ZRecord valueType =>
      match v with
      | VObject props =>
          VObject (keptEntries async (kept async valueType) props)
      | _ => v
      end
  | ZOptional inner => kept async inner v
  | _ => v
  end.

(** The members an object shape makes of an object it accepts, in the
    order of the shape: a member is there when the object has its key,
    with the value its schema makes of it. *)
Fixpoint keptMembers (async : bool) (shape : list (string * ZodType))
    (props : list (string * JsVal)) : list (string * JsVal) :=
  match shape with
  | [] => []
  | (key, t) :: rest =>
      if negb (String.eqb key "__proto__") && hasProp props key
      then (key, kept async t (getProp props key))
             :: keptMembers async rest props
      else keptMembers async rest props
  end.

(** The members of an object a shape accepts, as the shape's members
    hand them to the merge. *)
Definition keptPairs (async : bool) (shape : list (string * ZodType))
    (props : list (string * JsVal)) : list ParsedPair :=
  map (fun field =>
         mkPair (fst field) (hasProp props (fst field))
           (Valid (kept async (snd field) (getProp props (fst field)))))
    shape.

(** Two outcomes agree when both pass, or both fail with the same
    issues. *)
Definition sameOutcome (r r' : ParseReturn) : Prop :=
  isValid r = isValid r' /\ issuesOf r = issuesOf r'.

Fixpoint distinctKeys (keys : list string) : bool :=
  match keys with
  | [] => true
  | key :: rest =>
      negb (existsb (String.eqb key) rest) && distinctKeys rest
  end.

(** A shape names each key once, and none is [__proto__]. *)
Definition wellKeyed (shape : list (string * ZodType)) : bool :=
  distinctKeys (map fst shape)
  && forallb (fun key => negb (String.eqb key "__proto__"))
       (map fst shape).

(** The keys an operation's schema declares, in schema order. *)
Definition declaredKeys (op : Operation) : list string :=
  map fst (shapeOf (proc_input (procedure op))).

(** The operations whose resolver hands its whole input to the
    gateway. *)
Definition forwardsInput (op : Operation) : bool :=
  match op with
  | OpCreateAgent | OpCreateAgentVersion => true
  | _ => false
  end.

Definition isObject (v : JsVal) : bool :=
  match v with VObject _ => true | _ => false end.

Definition isArrayOf (check : JsVal -> bool) (v : JsVal) : bool :=
  match v with
  | VArray items => forallb check items
  | _ => false
  end.

(** What [paginationSchema.optional()] accepts: no input at all, or an
    object whose [page] and [pageSize] are absent or numbers. *)
Definition paginationAccepts (raw : JsVal) : bool :=
  match raw with
  | VUndefined => true
  | VObject props =>
      absentOr isNumber (getProp props "page")
      && absentOr isNumber (getProp props "pageSize")
  | _ => false
  end.

(** What each member of [createAgentVersionSchema] accepts. *)
Definition versionFields : list (string * (JsVal -> bool)) :=
  [("a2aProtocolVersion", absentOr isString);
   ("avatar", absentOr isString);
   ("category", absentOr isString);
   ("changelog", absentOr isString);
   ("config", absentOr isObject);
   ("defaultInputModes", absentOr (isArrayOf isString));
   ("defaultOutputModes", absentOr (isArrayOf isString));
   ("description", absentOr isString);
   ("documentationUrl", absentOr isString);
   ("extensions", absentOr (isArrayOf isObject));
   ("hasPushNotifications", absentOr isBoolean);
   ("hasStateTransitionHistory", absentOr isBoolean);
   ("hasStreaming", absentOr isBoolean);
   ("identifier", isString);
   ("interfaces", absentOr (isArrayOf isObject));
   ("name", absentOr isString);
   ("preferredTransport", absentOr isString);
   ("providerId", absentOr isNumber);
   ("securityRequirements", absentOr (isArrayOf isObject));
   ("securitySchemes", absentOr isObject);
   ("setAsCurrent", absentOr isBoolean);
   ("summary", absentOr isString);
   ("supportsAuthenticatedExtendedCard", absentOr isBoolean);
   ("tokenUsage", absentOr isNumber);
   ("url", absentOr isString)].

Definition createAgentVersionAccepts (raw : JsVal) : bool :=
  match raw with
  | VObject props =>
      forallb (fun field => snd field (getProp props (fst field)))
        versionFields
  | _ => false
  end.

(** ** The notebook's document views *)

Module Notebook.

(** A JavaScript string: the sequence of its UTF-16 code units, which
    is what [length] counts. *)
Definition JsString : Type := list N.

(** A literal of the source, all of whose characters are ASCII. *)
Fixpoint literal (s : string) : JsString :=
  match s with
  | EmptyString => []
  | String c rest => Ascii.N_of_ascii c :: literal rest
  end.

(** The class names the two components use. *)
Inductive ClassName : Type :=
| styles_container
| styles_root
| styles_title
| shinyText.

Inductive PropValue : Type :=
| PString (s : string)
| PNumber (n : nat)
| PFlag
| PToken (name : string)
| PClass (names : list ClassName)
| PStyle (declarations : list (string * nat)).

(** What a component returns: nothing ([null], [false], [undefined]),
    a text, or an element with its props and children. *)
Inductive ReactNode : Type :=
| RNothing
| RText (s : JsString)
| RElement (type : string) (props : list (string * PropValue))
    (children : list ReactNode).

(** [CreateDocumentArgs], as far as the views read it; a field may
    still be missing while the arguments stream in. *)
Record CreateDocumentArgs : Type := mkArgs {
  content : option JsString;
  title : option JsString
}.

(** A string is truthy when it is there and not empty. *)
Definition truthy (s : option JsString) : bool :=
  match s with
  | Some (_ :: _) => true
  | _ => false
  end.

(** [a || b] on strings that may be missing. *)
Definition orElse (a b : option JsString) : option JsString :=
  if truthy a then a else b.

(** [args?.field] *)
Definition field (args : option CreateDocumentArgs)
    (read : CreateDocumentArgs -> option JsString) : option JsString :=
  match args with
  | Some a => read a
  | None => None
  end.

(** [cond && node] in a list of children: the node when the condition
    holds, and nothing to show otherwise. *)
Definition andThen (cond : bool) (node : ReactNode) : ReactNode :=
  if cond then node else RNothing.

(** [value && node] on a string that may be missing: a falsy value is
    itself what is rendered, nothing for [undefined] and the empty
    text for the empty string. *)
Definition andNode (value : option JsString) (node : ReactNode)
    : ReactNode :=
  match value with
  | None => RNothing
  | Some [] => RText []
  | Some _ => node
  end.

(** A string used as a child. *)
Definition textOf (value : option JsString) : ReactNode :=
  match value with
  | Some s => RText s
  | None => RNothing
  end.

(** The streaming view of [createDocument]. *)
Definition CreateDocumentStreaming (args : option CreateDocumentArgs)
    : ReactNode :=
  let content := field args content in
  let title := field args title in
  if negb (truthy content) then RNothing
  else
    RElement "div" [("className", PClass [styles_container])]
      [andNode title
         (RElement "h3"
            [("style", PStyle [("marginBottom", 12); ("marginTop", 0)])]
            [textOf title]);
       RElement "Markdown" [] [textOf content]].

Record BuiltinInspectorProps : Type := mkInspectorProps {
  args : option CreateDocumentArgs;
  partialArgs : option CreateDocumentArgs;
  isArgumentsStreaming : option bool
}.

(** [args?.content || partialArgs?.content || ''] *)
Definition inspectedContent (props : BuiltinInspectorProps) : JsString :=
  match orElse (orElse (field (args props) content)
                  (field (partialArgs props) content))
          (Some []) with
  | Some s => s
  | None => []
  end.

Section Inspector.

(** [t] of [useTranslation('plugin')]. *)
Variable t : string -> JsString.

(** The count shown beside the label. *)
Definition charsBadge (lead : list ReactNode) (chars : nat) : ReactNode :=
  RElement "Text"
    [("as", PString "span"); ("code", PFlag);
     ("color", PToken "colorTextDescription"); ("fontSize", PNumber 12)]
    (lead ++
     [RElement "AnimatedNumber" [("value", PNumber chars)] [];
      RText (t "builtins.lobe-notebook.apiName.createDocument.chars")]).

(** The inspector line of [createDocument]. *)
Definition CreateDocumentInspector (props : BuiltinInspectorProps)
    : ReactNode :=
  let content := inspectedContent props in
  let chars := length content in
  let hasContent := Nat.ltb 0 chars in
  match isArgumentsStreaming props with
  | Some true =>
      if negb hasContent
      then
        RElement "div" [("className", PClass [styles_root; shinyText])]
          [RElement "span" []
             [RText (t "builtins.lobe-notebook.apiName.createDocument")]]
      else
        RElement "div" [("className", PClass [styles_root])]
          [RElement "span" [("className", PClass [shinyText])]
             [RText
                (t "builtins.lobe-notebook.apiName.createDocument.creating")];
           andThen (Nat.ltb 0 chars) (charsBadge [RText (literal " ")] chars)]
  | _ =>
      RElement "div" [("className", PClass [styles_root])]
        [RElement "span" [("className", PClass [styles_title])]
           [RText (t "builtins.lobe-notebook.apiName.createDocument.result")];
         andThen (Nat.ltb 0 chars) (charsBadge [] chars)]
  end.

End Inspector.

(** The texts a node shows, in reading order; an empty text shows
    nothing. *)
Fixpoint visibleText (node : ReactNode) : list JsString :=
  match node with
  | RNothing => []
  | RText [] => []
  | RText s => [s]
  | RElement _ _ children =>
      (fix all (nodes : list ReactNode) : list JsString :=
         match nodes with
         | [] => []
         | n :: rest => (visibleText n ++ all rest)%list
         end) children
  end.

(** The numbers shown through [AnimatedNumber], in reading order. *)
Fixpoint shownNumbers (node : ReactNode) : list nat :=
  match node with
  | RElement type props children =>
      ((if String.eqb type "AnimatedNumber"
        then match props with
             | [(_, PNumber n)] => [n]
             | _ => []
             end
        else [])
       ++ (fix all (nodes : list ReactNode) : list nat :=
             match nodes with
             | [] => []
             | n :: rest => (shownNumbers n ++ all rest)%list
             end) children)%list
  | _ => []
  end.

(** The text a string contributes when shown: none when it is missing
    or empty. *)
Definition shown (value : option JsString) : list JsString :=
  match value with
  | Some (c :: rest) => [c :: rest]
  | _ => []
  end.

End Notebook.

(** * Properties *)

Section ResolverFacts.

Import agentRouter.

(** Each resolver is an instance of the shared shape. *)
Lemma resolver_settles (op : Operation) (input : JsVal) (ctx : Context)
    (w : World) :
  proc_resolver (procedure op) input ctx w = settles op input ctx w.
Proof.
  unfold settles.
  destruct op; cbn -[String.append];
    unfold bind, tryCatch, log, member, settle, MarketSDK.invoke, throw, ret;
    cbn -[String.append].
  all: try (destruct input; cbn -[String.append]).
  all: repeat match goal with
       | |- context [?m ?a (catalog ?w)] =>
           lazymatch type of (m a (catalog w)) with
           | prod _ _ => destruct (m a (catalog w)) as [? [?|?]]
           end
       end; reflexivity.
Qed.

End ResolverFacts.

(** ** Validation *)

Section ZodFacts.

Variable async : bool.

Lemma zparse_object (shape : list (string * ZodType))
    (path : list PathSegment) (props : list (string * JsVal)) :
  zparse async (ZObject shape) path (VObject props)
  = mergeObject (parseMembers async shape path props).
Proof.
  cbn [zparse]. f_equal. unfold parseMembers.
  induction shape as [|[key fieldType] rest IH]; [reflexivity|].
  cbn [map fst snd]. now rewrite IH.
Qed.

Lemma isValid_mergeObject (pairs : list ParsedPair) :
  isValid (mergeObject pairs)
  = forallb isValid (map pair_result pairs).
Proof.
  unfold mergeObject.
  replace (forallb (fun p => isValid (pair_result p)) pairs)
    with (forallb isValid (map pair_result pairs)).
  - now destruct (forallb isValid (map pair_result pairs)).
  - induction pairs as [|p rest IH]; [reflexivity|].
    cbn. now rewrite IH.
Qed.

Lemma mergeObject_invalid (pairs : list ParsedPair) (issues : list ZodIssue) :
  mergeObject pairs = Invalid issues ->
  forallb isValid (map pair_result pairs) = false /\
  issues = mergeIssues (map pair_result pairs).
Proof.
  intros H. pose proof (isValid_mergeObject pairs) as HV.
  rewrite H in HV. cbn in HV. split; [now symmetry|].
  unfold mergeObject in H.
  destruct (forallb _ pairs); [discriminate|]. now injection H.
Qed.

Lemma mergeArray_invalid (results : list ParseReturn)
    (issues : list ZodIssue) :
  mergeArray results = Invalid issues ->
  forallb isValid results = false /\ issues = mergeIssues results.
Proof.
  unfold mergeArray. destruct (forallb isValid results); [discriminate|].
  intros H. now injection H.
Qed.

Lemma wellReported_shorter (path more : list PathSegment)
    (issues : list ZodIssue) :
  wellReported (path ++ more) issues -> wellReported path issues.
Proof.
  intros [Hne Hall]. split; [exact Hne|].
  eapply Forall_impl; [exact Hall|].
  intros i [Hp Hm]. split; [|exact Hm]. now apply prefix_app_l in Hp.
Qed.

(** Merging keeps what the members reported. *)
Lemma mergeIssues_reported (path : list PathSegment)
    (results : list ParseReturn) :
  Forall (reportsWell path) results ->
  forallb isValid results = false ->
  wellReported path (mergeIssues results).
Proof.
  unfold mergeIssues.
  induction results as [|r rest IH]; intros Hall Hbad; [discriminate|].
  inversion Hall as [|? ? Hr Hrest]; subst.
  cbn [map concat]. destruct r as [v|issues]; cbn [issuesOf app].
  - cbn in Hbad. exact (IH Hrest Hbad).
  - destruct (Hr issues eq_refl) as [Hne Hi]. split.
    + destruct issues; [congruence|discriminate].
    + apply Forall_app. split; [exact Hi|].
      destruct (forallb isValid rest) eqn:Hv.
      * replace (concat (map issuesOf rest)) with (@nil ZodIssue);
          [constructor|].
        clear -Hv. induction rest as [|[v|i] rest IH]; cbn in *;
          [reflexivity| |discriminate].
        now apply IH.
      * exact (proj2 (IH Hrest eq_refl)).
Qed.

Lemma invalidType_reported (expected : string) (data : JsVal)
    (path : list PathSegment) :
  wellReported path [invalidType expected data path].
Proof.
  split; [discriminate|]. constructor; [|constructor].
  split; [reflexivity|]. destruct data; cbn; discriminate.
Qed.

Lemma invalidEnumType_reported (values : list string) (data : JsVal)
    (path : list PathSegment) :
  wellReported path [invalidEnumType values data path].
Proof.
  split; [discriminate|]. constructor; [|constructor].
  split; [reflexivity|]. destruct data; cbn; discriminate.
Qed.

Lemma invalidEnumValue_reported (values : list string) (received : string)
    (path : list PathSegment) :
  wellReported path [invalidEnumValue values received path].
Proof.
  split; [discriminate|]. constructor; [|constructor].
  split; [reflexivity|]. cbn. discriminate.
Qed.

Lemma Forall_imap_intro {A B} (Q : B -> Prop) (items : list A) :
  forall f : nat -> A -> B,
    (forall i x, Q (f i x)) -> Forall Q (imap f items).
Proof.
  induction items as [|x rest IH]; intros f Hf; cbn; constructor.
  - apply Hf.
  - apply IH. intros i y. apply Hf.
Qed.

(** Every failed parse is well reported. *)
Lemma zparse_reports (t : ZodType) :
  forall path data, reportsWell path (zparse async t path data).
Proof.
  induction t as [ | | | |values|element IH|valueType IH|shape IH|inner IH]
    using ZodType_shape_ind; intros path data issues H.
  - discriminate.
  - destruct data; try discriminate; injection H as <-;
      apply invalidType_reported.
  - cbn in H. destruct (getParsedType data) eqn:E; try discriminate;
      injection H as <-; apply invalidType_reported.
  - destruct data; try discriminate; injection H as <-;
      apply invalidType_reported.
  - destruct data as [| | | |s| |]; cbn in H;
      try (injection H as <-; apply invalidEnumType_reported).
    destruct (existsb (String.eqb s) values); [discriminate|].
    injection H as <-. apply invalidEnumValue_reported.
  - destruct data; cbn [zparse] in H;
      try (injection H as <-; apply invalidType_reported).
    apply mergeArray_invalid in H as [Hbad ->].
    apply mergeIssues_reported; [|exact Hbad].
    apply Forall_imap_intro. intros i x sub Hsub.
    eapply wellReported_shorter. exact (IH _ _ _ Hsub).
  - destruct data; cbn [zparse] in H;
      try (injection H as <-; apply invalidType_reported).
    apply mergeObject_invalid in H as [Hbad ->].
    apply mergeIssues_reported; [|exact Hbad].
    rewrite map_map. cbn [pair_result].
    apply List.Forall_forall. intros r Hr. apply in_map_iff in Hr as [kv [<- _]].
    intros sub Hsub. eapply wellReported_shorter. exact (IH _ _ _ Hsub).
  - destruct data;
      try (cbn [zparse] in H; injection H as <-; apply invalidType_reported).
    rewrite zparse_object in H.
    apply mergeObject_invalid in H as [Hbad ->].
    apply mergeIssues_reported; [|exact Hbad].
    unfold parseMembers. rewrite map_map. cbn [pair_result].
    apply List.Forall_forall. intros r Hr.
    apply in_map_iff in Hr as [field [<- Hin]].
    rewrite List.Forall_forall in IH. specialize (IH field Hin).
    intros sub Hsub. eapply wellReported_shorter. exact (IH _ _ _ Hsub).
  - destruct data; cbn [zparse] in H; try exact (IH _ _ _ H).
    discriminate.
Qed.

(** A member that fails makes the object fail, and all of the
    member's issues are among the object's. *)
Lemma member_issues_kept (shape : list (string * ZodType))
    (path : list PathSegment) (props : list (string * JsVal))
    (key : string) (fieldType : ZodType) (sub : list ZodIssue) :
  In (key, fieldType) shape ->
  zparse async fieldType (path ++ [PKey key]) (getProp props key) = Invalid sub ->
  exists issues,
    zparse async (ZObject shape) path (VObject props) = Invalid issues /\
    incl sub issues.
Proof.
  intros Hin Hsub. rewrite zparse_object.
  assert (Hmem : In (Invalid sub)
                   (map pair_result (parseMembers async shape path props))).
  { unfold parseMembers. rewrite map_map. cbn [pair_result].
    apply in_map_iff. exists (key, fieldType). now split. }
  assert (Hbad : forallb isValid
                   (map pair_result (parseMembers async shape path props)) = false).
  { destruct (forallb isValid _) eqn:E; [|reflexivity].
    rewrite forallb_forall in E. now specialize (E _ Hmem). }
  pose proof (isValid_mergeObject (parseMembers async shape path props)) as HV.
  rewrite Hbad in HV.
  destruct (mergeObject (parseMembers async shape path props)) as [v|issues] eqn:E;
    [discriminate|].
  exists issues. split; [reflexivity|].
  apply mergeObject_invalid in E as [_ ->].
  intros i Hi. unfold mergeIssues. apply in_concat.
  exists sub. split; [|exact Hi].
  apply in_map_iff. exists (Invalid sub). now split.
Qed.

End ZodFacts.

(** ** The two ways of running a schema *)

Section ModeFacts.

Lemma issuesOf_mergeObject (pairs : list ParsedPair) :
  issuesOf (mergeObject pairs)
  = if forallb isValid (map pair_result pairs)
    then []
    else mergeIssues (map pair_result pairs).
Proof.
  pose proof (isValid_mergeObject pairs) as HV. unfold mergeObject in *.
  destruct (forallb (fun p => isValid (pair_result p)) pairs);
    cbn in HV; now rewrite <- HV.
Qed.

Lemma merged_agree (rs rs' : list ParseReturn) :
  Forall2 sameOutcome rs rs' ->
  forallb isValid rs = forallb isValid rs' /\
  mergeIssues rs = mergeIssues rs'.
Proof.
  unfold mergeIssues.
  induction 1 as [|r r' rs rs' [Hv Hi] _ [IHv IHi]]; [now split|].
  cbn. now rewrite Hv, Hi, IHv, IHi.
Qed.

Lemma mergeObject_agree (pairs pairs' : list ParsedPair) :
  Forall2 sameOutcome (map pair_result pairs) (map pair_result pairs') ->
  sameOutcome (mergeObject pairs) (mergeObject pairs').
Proof.
  intros H. apply merged_agree in H as [Hv Hi]. split.
  - now rewrite !isValid_mergeObject.
  - now rewrite !issuesOf_mergeObject, Hv, Hi.
Qed.

Lemma mergeArray_agree (rs rs' : list ParseReturn) :
  Forall2 sameOutcome rs rs' -> sameOutcome (mergeArray rs) (mergeArray rs').
Proof.
  intros H. apply merged_agree in H as [Hv Hi]. unfold mergeArray.
  rewrite Hv, Hi. now destruct (forallb isValid rs').
Qed.

Lemma imap_agree {A} (items : list A) :
  forall f g : nat -> A -> ParseReturn,
    (forall i x, sameOutcome (f i x) (g i x)) ->
    Forall2 sameOutcome (imap f items) (imap g items).
Proof.
  induction items as [|x rest IH]; intros f g H; cbn; constructor.
  - apply H.
  - apply IH. intros i y. apply H.
Qed.

(** Run by [parse] or by [parseAsync], a schema accepts the same values
    and reports the same issues. *)
Lemma zparse_agree (t : ZodType) :
  forall path data,
    sameOutcome (zparse true t path data) (zparse false t path data).
Proof.
  induction t as [ | | | |values|element IH|valueType IH|shape IH|inner IH]
    using ZodType_shape_ind; intros path data.
  - now split.
  - now split.
  - now split.
  - now split.
  - now split.
  - destruct data; try (now split). cbn [zparse].
    apply mergeArray_agree, imap_agree. intros i x. apply IH.
  - destruct data; try (now split). cbn [zparse].
    apply mergeObject_agree. rewrite !map_map. cbn [pair_result].
    induction props as [|kv rest IHp]; cbn; constructor; [apply IH|exact IHp].
  - destruct data; try (now split). rewrite !zparse_object.
    apply mergeObject_agree. unfold parseMembers.
    rewrite !map_map. cbn [pair_result].
    induction IH as [|field rest Hf _ IHs]; cbn; constructor;
      [apply Hf|exact IHs].
  - destruct data; try (now split); cbn [zparse]; apply IH.
Qed.

Lemma parseAsync_invalid (t : ZodType) (data : JsVal)
    (issues : list ZodIssue) :
  parseAsync t data = Invalid issues <-> safeParse t data = Invalid issues.
Proof.
  unfold parseAsync, safeParse.
  destruct (zparse_agree t [] data) as [Hv Hi].
  destruct (zparse true t [] data), (zparse false t [] data);
    cbn in Hv, Hi; try discriminate; subst; split; congruence.
Qed.

Lemma parseAsync_isValid (t : ZodType) (data : JsVal) :
  isValid (parseAsync t data) = isValid (safeParse t data).
Proof. exact (proj1 (zparse_agree t [] data)). Qed.

End ModeFacts.

(** ** The gate and the input parser in front of a resolver *)

Section PipelineFacts.

Variable connect : string -> MarketSDK.t.

Lemma callProcedure_unauthenticated (p : Procedure) (req : Request)
    (w : World) :
  session req = None ->
  callProcedure connect p req w
  = (w, Rejected (mkTRPCError None UNAUTHORIZED "UNAUTHORIZED")).
Proof.
  intros H.
  unfold callProcedure, agentProcedure, use, authedProcedure, bind.
  now rewrite H.
Qed.

Lemma callProcedure_authenticated (p : Procedure) (req : Request)
    (w : World) (user : string) :
  session req = Some user ->
  callProcedure connect p req w = callAs connect user p (rawInput req) w.
Proof.
  intros H.
  unfold callProcedure, agentProcedure, use, authedProcedure, bind.
  now rewrite H.
Qed.

Lemma runValidated_invalid (p : Procedure) (raw : JsVal) (ctx : Context)
    (w : World) (issues : list ZodIssue) :
  parseAsync (proc_input p) raw = Invalid issues ->
  runValidated p raw ctx w
  = (w, Rejected (newTRPCErrorCausedBy (zodError issues) BAD_REQUEST)).
Proof.
  intros H. unfold runValidated, parseInput, bind. now rewrite H.
Qed.

Lemma runValidated_valid (p : Procedure) (raw input : JsVal) (ctx : Context)
    (w : World) :
  parseAsync (proc_input p) raw = Valid input ->
  runValidated p raw ctx w = proc_resolver p input ctx w.
Proof.
  intros H. unfold runValidated, parseInput, bind. now rewrite H.
Qed.

End PipelineFacts.

Lemma parseInput_pure (schema : ZodType) (raw : JsVal) (w : World) :
  fst (parseInput schema raw w) = w.
Proof.
  unfold parseInput. now destruct (parseAsync schema raw).
Qed.

Lemma zodError_message_nonempty (issues : list ZodIssue) :
  err_message (zodError issues) <> "".
Proof.
  cbn [zodError err_message]. destruct issues; cbn; discriminate.
Qed.

Lemma valid_object_is_object (async : bool)
    (shape : list (string * ZodType))
    (path : list PathSegment) (data value : JsVal) :
  zparse async (ZObject shape) path data = Valid value ->
  exists props, value = VObject props.
Proof.
  destruct data; try discriminate.
  rewrite zparse_object. unfold mergeObject.
  destruct (forallb _ _); [|discriminate].
  intros H. injection H as <-. eauto.
Qed.

Lemma getProp_missing (props : list (string * JsVal)) (key : string) :
  hasProp props key = false -> getProp props key = VUndefined.
Proof.
  induction props as [|[k v] rest IH]; [reflexivity|].
  cbn. destruct (String.eqb k key); [discriminate|]. exact IH.
Qed.


Lemma safeParse_object (op : agentRouter.Operation)
    (props : list (string * JsVal)) :
  safeParse (proc_input (agentRouter.procedure op)) (VObject props)
  = zparse false
      (ZObject (shapeOf (proc_input (agentRouter.procedure op)))) []
      (VObject props).
Proof. destruct op; reflexivity. Qed.


(** ** What [createAgentSchema] accepts *)

Section FieldFacts.

Variable async : bool.

Lemma valid_string (p : list PathSegment) (v : JsVal) :
  isValid (zparse async ZString p v) = isString v.
Proof. now destruct v. Qed.

Lemma valid_optional (t : ZodType) (p : list PathSegment) (v : JsVal) :
  isValid (zparse async (ZOptional t) p v)
  = absentOr (fun x => isValid (zparse async t p x)) v.
Proof. now destruct v. Qed.

Lemma valid_boolean (p : list PathSegment) (v : JsVal) :
  isValid (zparse async ZBoolean p v) = isBoolean v.
Proof. now destruct v. Qed.

Lemma valid_number (p : list PathSegment) (v : JsVal) :
  isValid (zparse async ZNumber p v) = isNumber v.
Proof. destruct v as [ | | |x| | | ]; try reflexivity. now destruct x. Qed.

Lemma valid_enum (values : list string) (p : list PathSegment) (v : JsVal) :
  isValid (zparse async (ZEnum values) p v) = isOneOf values v.
Proof.
  destruct v; try reflexivity. cbn.
  now destruct (existsb (String.eqb s) values).
Qed.

Lemma absentOr_ext (f g : JsVal -> bool) (v : JsVal) :
  (forall x, f x = g x) -> absentOr f v = absentOr g v.
Proof. intros H. destruct v; cbn; auto. Qed.

Lemma createAgentSchema_valid (raw : JsVal) :
  isValid (zparse async agentRouter.createAgentSchema [] raw)
  = createAgentAccepts raw.
Proof.
  destruct raw; try reflexivity.
  unfold agentRouter.createAgentSchema.
  rewrite zparse_object, isValid_mergeObject.
  unfold parseMembers, createAgentAccepts.
  cbn [map forallb fst snd pair_result app].
  rewrite !valid_optional, !valid_string.
  rewrite (absentOr_ext _ _ _ (valid_string _)).
  rewrite (absentOr_ext _ _ _ (valid_boolean _)).
  rewrite (absentOr_ext _ _ _ (valid_number _)).
  rewrite !(absentOr_ext _ _ _ (valid_enum _ _)).
  rewrite andb_true_r, !andb_assoc. reflexivity.
Qed.

End FieldFacts.

(** * Claims *)

(** C6, as worded: an input whose [identifier] and [name] are both the
    empty string passes [createAgentSchema], so acceptance does not
    require non-empty strings. *)
Lemma createAgent_accepts_empty_strings :
  let raw := VObject [("identifier", VString ""); ("name", VString "")] in
  isNonEmptyString (optChain raw "identifier") = false /\
  isNonEmptyString (optChain raw "name") = false /\
  safeParse createAgentSchema raw = Valid raw.
Proof. repeat split. Qed.

(** C6, amended: [createAgentSchema] accepts an input exactly when it is
    an object whose [identifier] is a string and whose [name] is a
    string (the empty string included) and each of [homepage],
    [isFeatured], [status], [tokenUsage], [visibility] is absent or of
    its declared type; every other input is refused with a
    [BAD_REQUEST] validation error that names at least one issue, and
    an accepted object always has both the [identifier] and the [name]
    key. *)
Theorem createAgent_validation (raw : JsVal) (w : World) :
  match safeParse createAgentSchema raw with
  | Valid _ => createAgentAccepts raw = true
  | Invalid issues =>
      createAgentAccepts raw = false /\
      issues <> [] /\
      parseInput (proc_input createAgent) raw w
      = (w, Rejected (newTRPCErrorCausedBy (zodError issues) BAD_REQUEST))
  end /\
  (forall props,
     createAgentAccepts (VObject props)
     = createAgentAccepts (VObject props)
       && (hasProp props "identifier" && hasProp props "name")).
Proof.
  split.
  - pose proof (createAgentSchema_valid false raw) as HV.
    fold (safeParse createAgentSchema raw) in HV.
    destruct (safeParse createAgentSchema raw) as [v|issues] eqn:E.
    + now symmetry.
    + repeat split.
      * now symmetry.
      * exact (proj1 (zparse_reports _ _ _ _ _ E)).
      * unfold parseInput. cbn [proc_input createAgent].
        now rewrite (proj2 (parseAsync_invalid _ _ _) E).
  - intros props. unfold createAgentAccepts.
    destruct (hasProp props "identifier") eqn:Hi;
      [|rewrite (getProp_missing _ _ Hi); cbn; now rewrite ?andb_false_r].
    destruct (hasProp props "name") eqn:Hn;
      [|rewrite (getProp_missing _ _ Hn); cbn; now rewrite ?andb_false_r].
    now rewrite andb_true_r.
Qed.



(** The error raised for an [identifier] that is missing: the object
    held in [issues], and the message of the error. *)
Example missing_identifier_error :
  let z := zodError (issuesOf (parseAsync identifierSchema (VObject []))) in
  issuesOfError z
  = VArray
      [VObject [("code", VString "invalid_type");
                ("expected", VString "string");
                ("received", VString "undefined");
                ("path", VArray [VString "identifier"]);
                ("message", VString "Required")]] /\
  err_message z
  = String.concat newline
      ["[";
       "  {";
       "    " +:+ dquote +:+ "code" +:+ dquote +:+ ": "
         +:+ dquote +:+ "invalid_type" +:+ dquote +:+ ",";
       "    " +:+ dquote +:+ "expected" +:+ dquote +:+ ": "
         +:+ dquote +:+ "string" +:+ dquote +:+ ",";
       "    " +:+ dquote +:+ "received" +:+ dquote +:+ ": "
         +:+ dquote +:+ "undefined" +:+ dquote +:+ ",";
       "    " +:+ dquote +:+ "path" +:+ dquote +:+ ": [";
       "      " +:+ dquote +:+ "identifier" +:+ dquote;
       "    ],";
       "    " +:+ dquote +:+ "message" +:+ dquote +:+ ": "
         +:+ dquote +:+ "Required" +:+ dquote;
       "  }";
       "]"].
Proof. split; reflexivity. Qed.

(** Several invalid members at once: none hides the others. *)
Example createAgent_reports_three_fields :
  map issue_path
    (issuesOf
       (safeParse createAgentSchema
          (VObject [("identifier", VBool true); ("homepage", VNull);
                    ("visibility", VString "secret")])))
  = [[PKey "homepage"]; [PKey "identifier"]; [PKey "name"];
     [PKey "visibility"]].
Proof. reflexivity. Qed.

(** C5: an invocation without an authenticated identity is refused with
    [UNAUTHORIZED], and an authenticated invocation whose raw input
    fails the operation's schema is refused with [BAD_REQUEST]; in both
    cases the world is returned as it was, so no gateway call has been
    made and the catalog is untouched. *)
Theorem local_errors_make_no_gateway_call (connect : string -> MarketSDK.t)
    (op : Operation) (req : Request) (w : World) :
  session req = None \/
  isValid (safeParse (proc_input (procedure op)) (rawInput req)) = false ->
  exists err,
    callProcedure connect (procedure op) req w = (w, Rejected err) /\
    code err = match session req with
               | None => UNAUTHORIZED
               | Some _ => BAD_REQUEST
               end /\
    sdkCalls (fst (callProcedure connect (procedure op) req w)) = sdkCalls w.
Proof.
  intros H. destruct (session req) as [user|] eqn:Hs.
  - destruct H as [H|H]; [discriminate|].
    rewrite (callProcedure_authenticated _ _ _ _ _ Hs). unfold callAs.
    destruct (safeParse (proc_input (procedure op)) (rawInput req))
      as [v|issues] eqn:E; [discriminate|].
    rewrite (runValidated_invalid _ _ _ _ _
               (proj2 (parseAsync_invalid _ _ _) E)).
    eauto.
  - rewrite (callProcedure_unauthenticated _ _ _ _ Hs). eauto.
Qed.

Lemma local_errors_make_no_gateway_call_witness :
  let connect := ReferenceGateway.sdk in
  let req := mkRequest None (identifierInput "a1") in
  (session req = None \/
   isValid (safeParse (proc_input (procedure OpPublishAgent)) (rawInput req))
   = false) /\
  exists err,
    callProcedure connect (procedure OpPublishAgent) req emptyWorld
    = (emptyWorld, Rejected err) /\
    code err = UNAUTHORIZED /\
    sdkCalls (fst (callProcedure connect (procedure OpPublishAgent) req
                     emptyWorld))
    = sdkCalls emptyWorld.
Proof.
  cbv zeta. split.
  - left; reflexivity.
  - apply (local_errors_make_no_gateway_call ReferenceGateway.sdk
             OpPublishAgent (mkRequest None (identifierInput "a1"))
             emptyWorld).
    left; reflexivity.
Defined.

(** The same for an authenticated caller whose input lacks the
    identifier. *)
Example invalid_input_makes_no_gateway_call :
  let req := mkRequest (Some "alice") (VObject [("id", VString "a1")]) in
  exists err,
    callProcedure ReferenceGateway.sdk (procedure OpDeprecateAgent) req
      emptyWorld
    = (emptyWorld, Rejected err) /\
    code err = BAD_REQUEST.
Proof. eexists. split; reflexivity. Qed.

(** C4: a resolver that runs, that is, on an input its schema produced
    (by [parse] or by [parseAsync]), makes exactly one gateway call, to
    the method of the fixed set that corresponds to the operation; the
    catalog it leaves is the one that gateway call returned. *)
Theorem one_gateway_call_per_invocation (async : bool) (op : Operation)
    (raw input : JsVal) (ctx : Context) (w : World) :
  zparse async (proc_input (procedure op)) [] raw = Valid input ->
  exists arg,
    sdkCalls (fst (proc_resolver (procedure op) input ctx w))
    = (sdkCalls w ++ [mkCall (gatewayMethodName op) [arg]])%list /\
    In (gatewayMethodName op) MarketSDK.methodSet /\
    catalog (fst (proc_resolver (procedure op) input ctx w))
    = fst (gatewayMethod op (MarketSDK.agents (marketSDK ctx)) arg (catalog w)).
Proof.
  intros Hvalid. rewrite resolver_settles. unfold settles.
  assert (Harg : exists arg, argumentOf op input = Fulfilled arg).
  { destruct op; cbn [argumentOf]; eauto;
      apply valid_object_is_object in Hvalid as [props ->]; cbn; eauto. }
  destruct Harg as [arg ->]. exists arg.
  destruct (gatewayMethod op _ arg (catalog w)) as [c [v|e]];
    (repeat split; [destruct op; cbn; tauto]).
Qed.

Lemma one_gateway_call_per_invocation_witness :
  let ctx := mkContext "alice" (ReferenceGateway.sdk "alice") in
  let input := identifierInput "a1" in
  parseAsync (proc_input (procedure OpPublishAgent))
    (VObject [("identifier", VString "a1"); ("force", VBool true)])
  = Valid input /\
  exists arg,
    sdkCalls (fst (proc_resolver (procedure OpPublishAgent) input ctx
                     emptyWorld))
    = (sdkCalls emptyWorld
       ++ [mkCall (gatewayMethodName OpPublishAgent) [arg]])%list /\
    In (gatewayMethodName OpPublishAgent) MarketSDK.methodSet /\
    catalog (fst (proc_resolver (procedure OpPublishAgent) input ctx
                    emptyWorld))
    = fst (gatewayMethod OpPublishAgent (MarketSDK.agents (marketSDK ctx)) arg
             (catalog emptyWorld)).
Proof.
  cbv zeta. split.
  - reflexivity.
  - apply (one_gateway_call_per_invocation true OpPublishAgent
             (VObject [("identifier", VString "a1"); ("force", VBool true)])
             (identifierInput "a1")
             (mkContext "alice" (ReferenceGateway.sdk "alice")) emptyWorld).
    reflexivity.
Defined.



Section ResolverOutcomes.

Variables (op : Operation) (input : JsVal) (ctx : Context) (w : World).
Variables (arg : JsVal) (c : Catalog).

Hypothesis Harg : argumentOf op input = Fulfilled arg.

Lemma resolver_fulfilled (response : JsVal) :
  gatewayMethod op (MarketSDK.agents (marketSDK ctx)) arg (catalog w)
  = (c, Fulfilled response) ->
  proc_resolver (procedure op) input ctx w
  = (mkWorld c (sdkCalls w ++ [mkCall (gatewayMethodName op) [arg]])
       (debugLog w ++ [mkLine (inputLogFormat op) (LogValue input)]),
     Fulfilled (returned op response)).
Proof.
  intros Hgw. rewrite resolver_settles. unfold settles.
  now rewrite Harg, Hgw.
Qed.

Lemma resolver_rejected (e : Thrown) :
  gatewayMethod op (MarketSDK.agents (marketSDK ctx)) arg (catalog w)
  = (c, Rejected e) ->
  proc_resolver (procedure op) input ctx w
  = (mkWorld c (sdkCalls w ++ [mkCall (gatewayMethodName op) [arg]])
       ((debugLog w ++ [mkLine (inputLogFormat op) (LogValue input)])
          ++ [mkLine (errorLogFormat op) (LogThrown e)]),
     Rejected (wrapError op e)).
Proof.
  intros Hgw. rewrite resolver_settles. unfold settles.
  now rewrite Harg, Hgw.
Qed.

End ResolverOutcomes.

Lemma fallbackMessage_nonempty (op : Operation) : fallbackMessage op <> "".
Proof. destruct op; discriminate. Qed.

(** C2, as worded: a [null] gateway result of a transition is not
    returned unchanged although it is not [undefined], and a defined
    result that is no confirmation is returned as it is, so the caller
    of a transition does not always receive a boolean-bearing value. *)
Lemma null_is_replaced_and_plain_values_pass :
  let input := identifierInput "a1" in
  snd (proc_resolver publishAgent input
         (StubGateway.context (Fulfilled VNull)) emptyWorld)
  = Fulfilled (VObject [("success", VBool true)]) /\
  VNull <> VUndefined /\
  snd (proc_resolver publishAgent input
         (StubGateway.context (Fulfilled (VString "ok"))) emptyWorld)
  = Fulfilled (VString "ok") /\
  isConfirmation (VString "ok") = false.
Proof. repeat split. discriminate. Qed.

(** C2, amended: a successful gateway result is returned unchanged,
    except that the three transition operations replace a nullish
    result ([undefined] or [null]) with [{success: true}]; the caller
    of a transition therefore receives a boolean-bearing confirmation
    exactly when the gateway's result was nullish or was such a
    confirmation itself. *)
Theorem successful_results_pass_through (op : Operation) (input : JsVal)
    (ctx : Context) (w : World) (arg : JsVal) (c : Catalog)
    (response : JsVal) :
  argumentOf op input = Fulfilled arg ->
  gatewayMethod op (MarketSDK.agents (marketSDK ctx)) arg (catalog w)
  = (c, Fulfilled response) ->
  snd (proc_resolver (procedure op) input ctx w)
  = Fulfilled (if isTransition op && nullish response
               then VObject [("success", VBool true)]
               else response) /\
  isConfirmation (if isTransition op && nullish response
                  then VObject [("success", VBool true)]
                  else response)
  = (isTransition op && nullish response) || isConfirmation response.
Proof.
  intros Harg Hgw.
  rewrite (resolver_fulfilled _ _ _ _ _ _ Harg _ Hgw). cbn [snd].
  unfold returned, coalesce.
  destruct (isTransition op), (nullish response); cbn; auto.
Qed.

Lemma successful_results_pass_through_witness :
  let ctx := StubGateway.context (Fulfilled VUndefined) in
  let input := identifierInput "a1" in
  (argumentOf OpPublishAgent input = Fulfilled (VString "a1") /\
   gatewayMethod OpPublishAgent (MarketSDK.agents (marketSDK ctx))
     (VString "a1") (catalog emptyWorld)
   = (∅, Fulfilled VUndefined)) /\
  snd (proc_resolver (procedure OpPublishAgent) input ctx emptyWorld)
  = Fulfilled (VObject [("success", VBool true)]) /\
  isConfirmation (VObject [("success", VBool true)]) = true.
Proof.
  cbv zeta. split.
  - split; reflexivity.
  - exact (successful_results_pass_through OpPublishAgent
             (identifierInput "a1")
             (StubGateway.context (Fulfilled VUndefined)) emptyWorld
             (VString "a1") ∅ VUndefined eq_refl eq_refl).
Defined.

(** A result that is there is handed back as it is, also by an
    operation that is no transition. *)
Example createAgent_result_passes_through :
  let input := VObject [("identifier", VString "a1"); ("name", VString "T")] in
  snd (proc_resolver (procedure OpCreateAgent) input
         (StubGateway.context (Fulfilled (VObject [("id", VString "a1")])))
         emptyWorld)
  = Fulfilled (VObject [("id", VString "a1")]) /\
  snd (proc_resolver (procedure OpCreateAgent) input
         (StubGateway.context (Fulfilled VUndefined)) emptyWorld)
  = Fulfilled VUndefined.
Proof. split; reflexivity. Qed.

(** C10: for each of the three transition operations a gateway result
    that is [null], like one that is [undefined], is turned into
    [{success: true}], and every other gateway result is returned
    unchanged. *)
Theorem transitions_coalesce_null (op : Operation) (input : JsVal)
    (ctx : Context) (w : World) (arg : JsVal) (c : Catalog)
    (response : JsVal) :
  isTransition op = true ->
  argumentOf op input = Fulfilled arg ->
  gatewayMethod op (MarketSDK.agents (marketSDK ctx)) arg (catalog w)
  = (c, Fulfilled response) ->
  snd (proc_resolver (procedure op) input ctx w)
  = Fulfilled match response with
              | VNull | VUndefined => VObject [("success", VBool true)]
              | _ => response
              end.
Proof.
  intros Ht Harg Hgw.
  rewrite (resolver_fulfilled _ _ _ _ _ _ Harg _ Hgw). cbn [snd].
  unfold returned, coalesce. rewrite Ht. now destruct response.
Qed.

Lemma transitions_coalesce_null_witness :
  let ctx := StubGateway.context (Fulfilled VNull) in
  let input := identifierInput "a1" in
  (isTransition OpUnpublishAgent = true /\
   argumentOf OpUnpublishAgent input = Fulfilled (VString "a1") /\
   gatewayMethod OpUnpublishAgent (MarketSDK.agents (marketSDK ctx))
     (VString "a1") (catalog emptyWorld)
   = (∅, Fulfilled VNull)) /\
  snd (proc_resolver (procedure OpUnpublishAgent) input ctx emptyWorld)
  = Fulfilled (VObject [("success", VBool true)]).
Proof.
  cbv zeta. split.
  - repeat split.
  - exact (transitions_coalesce_null OpUnpublishAgent (identifierInput "a1")
             (StubGateway.context (Fulfilled VNull)) emptyWorld
             (VString "a1") ∅ VNull eq_refl eq_refl eq_refl).
Defined.

(** C3, as worded: when the gateway raises an [Error] whose message is
    empty, the operation surfaces the empty message; the generic
    message of the operation is not substituted. *)
Lemma empty_error_message_is_not_replaced :
  let x := mkError "Error" "" "at MarketSDK.request" in
  let input := VObject [("identifier", VString "a1"); ("name", VString "T")] in
  snd (proc_resolver createAgent input
         (StubGateway.context (Rejected (ThrownError x))) emptyWorld)
  = Rejected (mkTRPCError (Some (CauseIs x)) INTERNAL_SERVER_ERROR "") /\
  fallbackMessage OpCreateAgent = "Failed to create agent".
Proof. split; reflexivity. Qed.

(** C3, amended: for every operation and everything the gateway may
    throw, the operation logs what was thrown and re-raises a
    [TRPCError] of code [INTERNAL_SERVER_ERROR].  Its message is the
    thrown error's own message when an [Error] instance was thrown
    (even an empty one) and otherwise the operation's generic,
    non-empty message.  Its cause is the thrown
    [Error] itself when an [Error] instance was thrown; a thrown text,
    number or boolean is kept wrapped in a new [Error], a thrown object
    as an [UnknownCauseError] with the object's properties, and for a
    thrown [undefined], [null] or array there is no cause at all. *)
Theorem gateway_errors_are_normalized (op : Operation) (input : JsVal)
    (ctx : Context) (w : World) (arg : JsVal) (c : Catalog) (e : Thrown) :
  argumentOf op input = Fulfilled arg ->
  gatewayMethod op (MarketSDK.agents (marketSDK ctx)) arg (catalog w)
  = (c, Rejected e) ->
  exists w' err,
    proc_resolver (procedure op) input ctx w = (w', Rejected err) /\
    In (mkLine (errorLogFormat op) (LogThrown e)) (debugLog w') /\
    code err = INTERNAL_SERVER_ERROR /\
    message err = match e with
                  | ThrownError x => err_message x
                  | ThrownValue _ => fallbackMessage op
                  end /\
    fallbackMessage op <> "" /\
    cause err = match e with
                | ThrownError x => Some (CauseIs x)
                | ThrownValue (VBool _ as v)
                | ThrownValue (VNumber _ as v)
                | ThrownValue (VString _ as v) => Some (CauseOfPrimitive v)
                | ThrownValue (VObject props) => Some (CauseOfObject props)
                | ThrownValue VUndefined
                | ThrownValue VNull
                | ThrownValue (VArray _) => None
                end.
Proof.
  intros Harg Hgw. eexists _, (wrapError op e). split.
  - exact (resolver_rejected _ _ _ _ _ _ Harg _ Hgw).
  - cbn [debugLog]. split; [|split; [|split; [|split]]].
    + apply in_or_app. right. now left.
    + reflexivity.
    + now destruct e.
    + apply fallbackMessage_nonempty.
    + now destruct e as [x|[]].
Qed.

Lemma gateway_errors_are_normalized_witness :
  let e := ThrownValue (VString "socket hang up") in
  let ctx := StubGateway.context (Rejected e) in
  (argumentOf OpGetOwnAgents VUndefined
   = Fulfilled (VObject [("page", VUndefined); ("pageSize", VUndefined)]) /\
   gatewayMethod OpGetOwnAgents (MarketSDK.agents (marketSDK ctx))
     (VObject [("page", VUndefined); ("pageSize", VUndefined)])
     (catalog emptyWorld)
   = (∅, Rejected e)) /\
  exists w' err,
    proc_resolver (procedure OpGetOwnAgents) VUndefined ctx emptyWorld
    = (w', Rejected err) /\
    In (mkLine (errorLogFormat OpGetOwnAgents) (LogThrown e)) (debugLog w') /\
    code err = INTERNAL_SERVER_ERROR /\
    message err = "Failed to get own agents" /\
    fallbackMessage OpGetOwnAgents <> "" /\
    cause err = Some (CauseOfPrimitive (VString "socket hang up")).
Proof.
  cbv zeta. split.
  - split; reflexivity.
  - exact (gateway_errors_are_normalized OpGetOwnAgents VUndefined
             (StubGateway.context
                (Rejected (ThrownValue (VString "socket hang up"))))
             emptyWorld
             (VObject [("page", VUndefined); ("pageSize", VUndefined)])
             ∅ (ThrownValue (VString "socket hang up")) eq_refl eq_refl).
Defined.

(** What is thrown need not be kept: a rejection with [null] leaves the
    re-raised error without a cause. *)
Example thrown_null_leaves_no_cause :
  snd (proc_resolver (procedure OpPublishAgent) (identifierInput "a1")
         (StubGateway.context (Rejected (ThrownValue VNull))) emptyWorld)
  = Rejected (mkTRPCError None INTERNAL_SERVER_ERROR
                "Failed to publish agent").
Proof. reflexivity. Qed.

(** C9: whatever the gateway raises, and whatever kind it has, the
    operation surfaces it with the code [INTERNAL_SERVER_ERROR]. *)
Theorem gateway_errors_are_internal_server_errors (op : Operation)
    (input : JsVal) (ctx : Context) (w : World) (arg : JsVal) (c : Catalog)
    (e : Thrown) :
  argumentOf op input = Fulfilled arg ->
  gatewayMethod op (MarketSDK.agents (marketSDK ctx)) arg (catalog w)
  = (c, Rejected e) ->
  exists w' err,
    proc_resolver (procedure op) input ctx w = (w', Rejected err) /\
    code err = INTERNAL_SERVER_ERROR.
Proof.
  intros Harg Hgw. eexists _, (wrapError op e). split.
  - exact (resolver_rejected _ _ _ _ _ _ Harg _ Hgw).
  - reflexivity.
Qed.

Lemma gateway_errors_are_internal_server_errors_witness :
  let e := ThrownError (mkError "NotFound" "agent not found" EmptyString) in
  let ctx := mkContext "alice" (ReferenceGateway.sdk "alice") in
  (argumentOf OpGetAgentDetail (identifierInput "ghost")
   = Fulfilled (VString "ghost") /\
   gatewayMethod OpGetAgentDetail (MarketSDK.agents (marketSDK ctx))
     (VString "ghost") (catalog emptyWorld)
   = (∅, Rejected e) /\
   kindOf (mkError "NotFound" "agent not found" EmptyString) = NotFound) /\
  exists w' err,
    proc_resolver (procedure OpGetAgentDetail) (identifierInput "ghost") ctx
      emptyWorld
    = (w', Rejected err) /\
    code err = INTERNAL_SERVER_ERROR.
Proof.
  cbv zeta. split.
  - repeat split.
  - exact (gateway_errors_are_internal_server_errors OpGetAgentDetail
             (identifierInput "ghost")
             (mkContext "alice" (ReferenceGateway.sdk "alice")) emptyWorld
             (VString "ghost") ∅
             (ThrownError (mkError "NotFound" "agent not found" EmptyString))
             eq_refl eq_refl).
Defined.

(** No resolver ever raises another code, whatever made it fail. *)
Lemma resolver_errors_are_internal (op : Operation) (input : JsVal)
    (ctx : Context) (w w' : World) (err : TRPCError) :
  proc_resolver (procedure op) input ctx w = (w', Rejected err) ->
  exists e, err = wrapError op e.
Proof.
  rewrite resolver_settles. unfold settles.
  destruct (argumentOf op input) as [arg|e].
  - destruct (gatewayMethod op _ arg (catalog w)) as [c [v|e]];
      intros H; inversion H; eauto.
  - intros H; inversion H; eauto.
Qed.

(** C8, as worded: an operation can surface an error whose message is
    the empty string. *)
Lemma surfaced_message_can_be_empty :
  let e := ThrownError (mkError "Error" "" "at MarketSDK.request") in
  let req := mkRequest (Some "alice") (identifierInput "a1") in
  exists w' err,
    callProcedure (fun _ => StubGateway.answering (Rejected e))
      (procedure OpGetAgentDetail) req emptyWorld
    = (w', Rejected err) /\
    message err = "".
Proof. cbv zeta. eexists _, _. split; reflexivity. Qed.

(** C8, amended: every error an operation surfaces is a [TRPCError]
    whose code is one of [UNAUTHORIZED], [BAD_REQUEST] and
    [INTERNAL_SERVER_ERROR] and whose message is a string that is
    non-empty, except when the operation re-raises an [Error] instance
    whose own message is empty. *)
Theorem surfaced_errors_are_structured (connect : string -> MarketSDK.t)
    (op : Operation) (req : Request) (w w' : World) (err : TRPCError) :
  callProcedure connect (procedure op) req w = (w', Rejected err) ->
  In (code err) [UNAUTHORIZED; BAD_REQUEST; INTERNAL_SERVER_ERROR] /\
  (message err <> "" \/
   exists x, cause err = Some (CauseIs x) /\ err_message x = "" /\
             code err = INTERNAL_SERVER_ERROR).
Proof.
  destruct (session req) as [user|] eqn:Hs.
  - rewrite (callProcedure_authenticated _ _ _ _ _ Hs). unfold callAs.
    destruct (parseAsync (proc_input (procedure op)) (rawInput req))
      as [input|issues] eqn:E.
    + rewrite (runValidated_valid _ _ _ _ _ E). intros H.
      apply resolver_errors_are_internal in H as [e ->]. split.
      * cbn. tauto.
      * destruct e as [x|v]; cbn.
        -- destruct (err_message x) eqn:Hm; [right|left; discriminate].
           exists x. now rewrite Hm.
        -- left. apply fallbackMessage_nonempty.
    + rewrite (runValidated_invalid _ _ _ _ _ E). intros H.
      inversion H; subst. split; [cbn; tauto|].
      left. apply zodError_message_nonempty.
  - rewrite (callProcedure_unauthenticated _ _ _ _ Hs). intros H.
    inversion H; subst. split; [cbn; tauto|]. left. discriminate.
Qed.

Lemma surfaced_errors_are_structured_witness :
  let req := mkRequest (Some "alice") (identifierInput "ghost") in
  let err :=
    mkTRPCError
      (Some (CauseIs (mkError "NotFound" "agent not found" EmptyString)))
      INTERNAL_SERVER_ERROR "agent not found" in
  callProcedure ReferenceGateway.sdk (procedure OpPublishAgent) req emptyWorld
  = (mkWorld ∅ [mkCall "publish" [VString "ghost"]]
       [mkLine "publishAgent input: %O" (LogValue (identifierInput "ghost"));
        mkLine "Error publishing agent: %O"
          (LogThrown
             (ThrownError
                (mkError "NotFound" "agent not found" EmptyString)))],
     Rejected err) /\
  In (code err) [UNAUTHORIZED; BAD_REQUEST; INTERNAL_SERVER_ERROR] /\
  (message err <> "" \/
   exists x, cause err = Some (CauseIs x) /\ err_message x = "" /\
             code err = INTERNAL_SERVER_ERROR).
Proof.
  cbv zeta. split.
  - reflexivity.
  - exact (surfaced_errors_are_structured ReferenceGateway.sdk OpPublishAgent
             (mkRequest (Some "alice") (identifierInput "ghost")) emptyWorld
             _ _ eq_refl).
Defined.

(** ** Deprecation *)

Lemma identifierSchema_parse (async : bool) (raw : JsVal)
    (identifier : string) :
  optChain raw "identifier" = VString identifier ->
  zparse async identifierSchema [] raw = Valid (identifierInput identifier).
Proof.
  destruct raw; try discriminate. cbn [optChain]. intros H.
  unfold identifierSchema. rewrite zparse_object.
  unfold parseMembers, mergeObject. cbn. now rewrite H.
Qed.

Section Terminality.

Variable connect : string -> MarketSDK.t.

Hypothesis gateway : EnforcesTerminalDeprecation connect.

(** A call on the router changes the catalog only through the gateway. *)
Lemma callAs_keeps_deprecated (op : Operation) (user : string) (raw : JsVal)
    (w : World) (identifier : string) :
  statusOf (catalog w) identifier = Some deprecated ->
  statusOf (catalog (fst (callAs connect user (procedure op) raw w)))
    identifier
  = Some deprecated.
Proof.
  intros Hd. unfold callAs.
  destruct (parseAsync (proc_input (procedure op)) raw)
    as [input|issues] eqn:E.
  - rewrite (runValidated_valid _ _ _ _ _ E), resolver_settles.
    unfold settles. destruct (argumentOf op input) as [arg|e]; [|exact Hd].
    pose proof (deprecated_stays connect gateway op user arg identifier _ Hd)
      as Hstay.
    cbn [marketSDK].
    destruct (gatewayMethod op _ arg (catalog w)) as [c [v|e]]; exact Hstay.
  - now rewrite (runValidated_invalid _ _ _ _ _ E).
Qed.

Lemma runAll_keeps_deprecated (calls : list Invocation) (w : World)
    (identifier : string) :
  statusOf (catalog w) identifier = Some deprecated ->
  statusOf (catalog (runAll connect calls w)) identifier = Some deprecated.
Proof.
  revert w. induction calls as [|call rest IH]; intros w Hd; [exact Hd|].
  cbn [runAll]. apply IH. now apply callAs_keeps_deprecated.
Qed.

Lemma deprecateAgent_deprecates (user : string) (raw : JsVal) (w w1 : World)
    (identifier : string) (response : JsVal) :
  optChain raw "identifier" = VString identifier ->
  callAs connect user deprecateAgent raw w = (w1, Fulfilled response) ->
  statusOf (catalog w1) identifier = Some deprecated.
Proof.
  intros Hid. unfold callAs.
  rewrite (runValidated_valid deprecateAgent _ _ _ _
             (identifierSchema_parse true _ _ Hid)).
  change deprecateAgent with (procedure OpDeprecateAgent).
  rewrite resolver_settles. unfold settles.
  cbn [argumentOf identifierInput readMember getProp String.eqb
         Ascii.eqb Bool.eqb gatewayMethod marketSDK].
  destruct (MarketSDK.deprecate _ (VString identifier) (catalog w))
    as [c [v|e]] eqn:Hgw; intros H; inversion H; subst.
  exact (deprecate_deprecates connect gateway _ _ _ _ _ Hgw).
Qed.

Lemma transition_of_deprecated_refused (op : Operation) (user : string)
    (raw : JsVal) (w : World) (identifier : string) :
  op = OpPublishAgent \/ op = OpUnpublishAgent ->
  optChain raw "identifier" = VString identifier ->
  statusOf (catalog w) identifier = Some deprecated ->
  exists w' e,
    callAs connect user (procedure op) raw w
    = (w', Rejected (mkTRPCError (Some (CauseIs e))
                       INTERNAL_SERVER_ERROR (err_message e))) /\
    kindOf e = Conflict /\
    statusOf (catalog w') identifier = Some deprecated.
Proof.
  intros Hop Hid Hd.
  destruct (transition_refused connect gateway op user identifier _ Hop Hd)
    as [c [e [Hgw Hkind]]].
  pose proof (deprecated_stays connect gateway op user (VString identifier)
                identifier _ Hd) as Hstay.
  rewrite Hgw in Hstay. cbn [fst] in Hstay.
  assert (Hparse : parseAsync (proc_input (procedure op)) raw
                   = Valid (identifierInput identifier)).
  { destruct Hop as [-> | ->]; exact (identifierSchema_parse true _ _ Hid). }
  assert (Harg : argumentOf op (identifierInput identifier)
                 = Fulfilled (VString identifier)).
  { destruct Hop as [-> | ->]; reflexivity. }
  unfold callAs.
  rewrite (runValidated_valid _ _ _ _ _ Hparse).
  rewrite (resolver_rejected op _ (mkContext user (connect user)) w _ c
             Harg _ Hgw).
  eexists _, e. split; [reflexivity|]. split; [exact Hkind|exact Hstay].
Qed.

End Terminality.

Section ReferenceGatewayFacts.

Import ReferenceGateway.

Lemma statusOf_insert (c : Catalog) (key identifier : string)
    (e : AgentEntry) :
  statusOf (<[key := e]> c) identifier
  = if decide (key = identifier) then Some (entry_status e)
    else statusOf c identifier.
Proof.
  unfold statusOf. rewrite lookup_insert. now case_decide.
Qed.

Lemma transition_keeps_deprecated (target : AgentStatus) (arg : JsVal)
    (identifier : string) (c : Catalog) :
  statusOf c identifier = Some deprecated ->
  statusOf (fst (transition target arg c)) identifier = Some deprecated.
Proof.
  intros Hd. unfold transition.
  destruct arg; try exact Hd.
  destruct (c !! s) as [e|] eqn:El; [|exact Hd].
  destruct (entry_status e) eqn:Es; try exact Hd;
    cbn [fst]; rewrite statusOf_insert; case_decide; try exact Hd;
    subst; unfold statusOf in Hd; rewrite El in Hd; cbn in Hd; congruence.
Qed.

(** The reference gateway enforces the rule the router relies on. *)
Lemma reference_gateway_enforces : EnforcesTerminalDeprecation sdk.
Proof.
  constructor.
  - intros user identifier c c' response. cbn. unfold deprecate.
    destruct (c !! identifier) as [e|]; [|discriminate].
    intros H. inversion H; subst.
    rewrite statusOf_insert. now case_decide.
  - intros op user identifier c Hop Hd.
    assert (Hl : exists e, c !! identifier = Some e /\
                           entry_status e = deprecated).
    { unfold statusOf in Hd. destruct (c !! identifier) as [e|];
        [|discriminate]. exists e. split; [reflexivity|].
      cbn in Hd. congruence. }
    destruct Hl as [e [Hl Hs]].
    exists c, (mkError (kindName Conflict) "agent is deprecated" EmptyString).
    split; [|reflexivity].
    destruct Hop as [-> | ->]; cbn; unfold publish, unpublish, transition;
      now rewrite Hl, Hs.
  - intros op user arg identifier c Hd.
    destruct op; cbn [gatewayMethod MarketSDK.agents sdk
                        MarketSDK.createAgent MarketSDK.createAgentVersion
                        MarketSDK.deprecate MarketSDK.getAgentDetail
                        MarketSDK.getOwnAgents MarketSDK.publish
                        MarketSDK.unpublish].
    + unfold createAgent. destruct arg; try exact Hd.
      destruct (getProp props "identifier"); try exact Hd.
      destruct (getProp props "name"); try exact Hd.
      destruct (c !! s) as [e|] eqn:El; [exact Hd|].
      cbn [fst]. rewrite statusOf_insert. case_decide; [|exact Hd].
      subst. unfold statusOf in Hd. rewrite El in Hd. discriminate.
    + unfold createAgentVersion. destruct arg; try exact Hd.
      destruct (getProp props "identifier"); try exact Hd.
      destruct (c !! s) as [e|] eqn:El; [|exact Hd].
      cbn [fst]. rewrite statusOf_insert. case_decide; [|exact Hd].
      subst. unfold statusOf in Hd. rewrite El in Hd. exact Hd.
    + unfold deprecate. destruct arg; try exact Hd.
      destruct (c !! s) as [e|] eqn:El; [|exact Hd].
      cbn [fst]. rewrite statusOf_insert. now case_decide.
    + unfold getAgentDetail. destruct arg; try exact Hd.
      destruct (c !! s) as [e|]; [|exact Hd].
      destruct (entry_visibility e); try exact Hd;
        now destruct (String.eqb (entry_owner e) user).
    + exact Hd.
    + now apply transition_keeps_deprecated.
    + now apply transition_keeps_deprecated.
Qed.

End ReferenceGatewayFacts.

(** C1, as worded: even over a gateway that enforces the rule, the
    error surfaced by [publishAgent] after a successful
    [deprecateAgent] carries the code [INTERNAL_SERVER_ERROR], not a
    conflict code; and the router itself enforces nothing, as a gateway
    that accepts every call lets [publishAgent] succeed after a
    successful [deprecateAgent]. *)
Lemma publish_after_deprecate_counterexample :
  let w1 :=
    runAll ReferenceGateway.sdk
      [mkInvocation OpCreateAgent "alice"
         (VObject [("identifier", VString "a1"); ("name", VString "Test")]);
       mkInvocation OpDeprecateAgent "alice" (identifierInput "a1")]
      emptyWorld in
  let lax := fun _ : string => StubGateway.answering (Fulfilled VUndefined) in
  (statusOf (catalog w1) "a1" = Some deprecated /\
   exists err,
     snd (callAs ReferenceGateway.sdk "alice" publishAgent
            (identifierInput "a1") w1)
     = Rejected err /\
     code err = INTERNAL_SERVER_ERROR /\ code err <> CONFLICT) /\
  (snd (callAs lax "alice" deprecateAgent (identifierInput "a1") emptyWorld)
   = Fulfilled success /\
   snd (callAs lax "alice" publishAgent (identifierInput "a1")
          (fst (callAs lax "alice" deprecateAgent (identifierInput "a1")
                  emptyWorld)))
   = Fulfilled success).
Proof.
  cbv zeta. split.
  - split; [reflexivity|]. eexists. split; [reflexivity|].
    split; [reflexivity|discriminate].
  - split; reflexivity.
Qed.

(** C1, amended: over a gateway that enforces the rule (a successful
    [deprecate] leaves the agent deprecated, no gateway method moves an
    agent out of [deprecated], [publish] and [unpublish] of a
    deprecated agent are refused with a Conflict error), once
    [deprecateAgent(id)] has succeeded the agent stays [deprecated]
    through every later sequence of calls on the router, and every
    later [publishAgent(id)] or [unpublishAgent(id)] fails with a
    [TRPCError] of code [INTERNAL_SERVER_ERROR] whose cause is the
    gateway's Conflict error and whose message is that error's
    message. *)
Theorem deprecation_is_terminal (connect : string -> MarketSDK.t)
    (user : string) (raw : JsVal) (w w1 : World) (identifier : string)
    (response : JsVal) (later : list Invocation) (op : Operation)
    (user' : string) (raw' : JsVal) :
  EnforcesTerminalDeprecation connect ->
  optChain raw "identifier" = VString identifier ->
  callAs connect user deprecateAgent raw w = (w1, Fulfilled response) ->
  op = OpPublishAgent \/ op = OpUnpublishAgent ->
  optChain raw' "identifier" = VString identifier ->
  statusOf (catalog (runAll connect later w1)) identifier = Some deprecated /\
  exists w' e,
    callAs connect user' (procedure op) raw' (runAll connect later w1)
    = (w', Rejected (mkTRPCError (Some (CauseIs e)) INTERNAL_SERVER_ERROR
                       (err_message e))) /\
    kindOf e = Conflict /\
    statusOf (catalog w') identifier = Some deprecated.
Proof.
  intros Hgw Hid Hdep Hop Hid'.
  assert (Hd : statusOf (catalog (runAll connect later w1)) identifier
               = Some deprecated).
  { apply runAll_keeps_deprecated; [exact Hgw|].
    exact (deprecateAgent_deprecates _ Hgw _ _ _ _ _ _ Hid Hdep). }
  split; [exact Hd|].
  exact (transition_of_deprecated_refused _ Hgw _ _ _ _ _ Hop Hid' Hd).
Qed.

Lemma deprecation_is_terminal_witness :
  let connect := ReferenceGateway.sdk in
  let w :=
    runAll connect
      [mkInvocation OpCreateAgent "alice"
         (VObject [("identifier", VString "a1"); ("name", VString "Test")]);
       mkInvocation OpPublishAgent "alice" (identifierInput "a1")]
      emptyWorld in
  let w1 :=
    fst (callAs connect "alice" deprecateAgent (identifierInput "a1") w) in
  let later :=
    [mkInvocation OpPublishAgent "alice" (identifierInput "a1");
     mkInvocation OpCreateAgent "bob"
       (VObject [("identifier", VString "a1"); ("name", VString "Again")]);
     mkInvocation OpDeprecateAgent "bob" (identifierInput "a1")] in
  (EnforcesTerminalDeprecation connect /\
   statusOf (catalog w) "a1" = Some published /\
   optChain (identifierInput "a1") "identifier" = VString "a1" /\
   callAs connect "alice" deprecateAgent (identifierInput "a1") w
   = (w1, Fulfilled success) /\
   (OpUnpublishAgent = OpPublishAgent \/ OpUnpublishAgent = OpUnpublishAgent)) /\
  statusOf (catalog (runAll connect later w1)) "a1" = Some deprecated /\
  exists w' e,
    callAs connect "bob" (procedure OpUnpublishAgent) (identifierInput "a1")
      (runAll connect later w1)
    = (w', Rejected (mkTRPCError (Some (CauseIs e)) INTERNAL_SERVER_ERROR
                       (err_message e))) /\
    kindOf e = Conflict /\
    statusOf (catalog w') "a1" = Some deprecated.
Proof.
  cbv zeta. split.
  - split; [exact reference_gateway_enforces|].
    repeat split. now right.
  - apply (deprecation_is_terminal ReferenceGateway.sdk "alice"
             (identifierInput "a1")
             (runAll ReferenceGateway.sdk
                [mkInvocation OpCreateAgent "alice"
                   (VObject [("identifier", VString "a1");
                             ("name", VString "Test")]);
                 mkInvocation OpPublishAgent "alice" (identifierInput "a1")]
                emptyWorld)
             _ "a1" success _ OpUnpublishAgent "bob" (identifierInput "a1")).
    + exact reference_gateway_enforces.
    + reflexivity.
    + reflexivity.
    + now right.
    + reflexivity.
Defined.

(** The life of an agent over the reference gateway: created, published,
    deprecated, and then refused. *)
Example agent_life_over_reference_gateway :
  let call := callAs ReferenceGateway.sdk "alice" in
  let w1 :=
    fst (call createAgent
           (VObject [("identifier", VString "a1"); ("name", VString "Test")])
           emptyWorld) in
  let w2 := fst (call publishAgent (identifierInput "a1") w1) in
  let w3 := fst (call deprecateAgent (identifierInput "a1") w2) in
  let w4 := fst (call deprecateAgent (identifierInput "a1") w3) in
  snd (call publishAgent (identifierInput "a1") w1) = Fulfilled success /\
  statusOf (catalog w2) "a1" = Some published /\
  snd (call deprecateAgent (identifierInput "a1") w2) = Fulfilled success /\
  snd (call deprecateAgent (identifierInput "a1") w3) = Fulfilled success /\
  statusOf (catalog w4) "a1" = Some deprecated /\
  map call_method (sdkCalls w4)
  = ["createAgent"; "publish"; "deprecate"; "deprecate"].
Proof. repeat split. Qed.

(** * Further properties of the router *)

Section ForwardingFacts.

Variable async : bool.

Lemma validated_argument (op : Operation) (raw input : JsVal) :
  zparse async (proc_input (procedure op)) [] raw = Valid input ->
  exists arg, argumentOf op input = Fulfilled arg.
Proof.
  intros Hvalid.
  destruct op; cbn [argumentOf]; eauto;
    apply valid_object_is_object in Hvalid as [props ->]; cbn; eauto.
Qed.

Lemma kept_undefined (t : ZodType) : kept async t VUndefined = VUndefined.
Proof. induction t; cbn; auto. Qed.

Lemma kept_recordFree (t : ZodType) :
  recordFree t = true -> forall v, kept async t v = v.
Proof.
  induction t as [ | | | |values|element IH|valueType IH|shape IH|inner IH]
    using ZodType_shape_ind; intros Hf v; cbn [recordFree] in Hf;
    try discriminate; try reflexivity.
  - destruct v; try reflexivity. cbn [kept]. f_equal.
    induction items as [|x rest IHi]; [reflexivity|].
    cbn. now rewrite (IH Hf), IHi.
  - cbn [kept]. exact (IH Hf v).
Qed.

Lemma hasProp_defined (props : list (string * JsVal)) (key : string) :
  isUndefined (getProp props key) = false -> hasProp props key = true.
Proof.
  intros H. destruct (hasProp props key) eqn:E; [reflexivity|].
  now rewrite (getProp_missing _ _ E) in H.
Qed.

Lemma finalArray_imap (keep : JsVal -> JsVal) (items : list JsVal) :
  forall f : nat -> JsVal -> ParseReturn,
    (forall i x v, f i x = Valid v -> v = keep x) ->
    forallb isValid (imap f items) = true ->
    finalArray (imap f items) = map keep items.
Proof.
  induction items as [|x rest IH]; intros f Hf Hall; [reflexivity|].
  cbn in *. destruct (f 0 x) as [v|issues] eqn:E; [|discriminate].
  cbn in Hall. rewrite (Hf _ _ _ E). f_equal.
  apply IH; [|exact Hall]. intros i y w. apply Hf.
Qed.

Lemma finalObject_record (keep : JsVal -> JsVal)
    (props : list (string * JsVal)) (f : string * JsVal -> ParseReturn) :
  (forall kv v, f kv = Valid v -> v = keep (snd kv)) ->
  forallb isValid (map f props) = true ->
  finalObject (map (fun kv => mkPair (fst kv) (negb async) (f kv)) props)
  = keptEntries async keep props.
Proof.
  intros Hf. induction props as [|[k x] rest IH]; intros Hall; [reflexivity|].
  cbn in *. destruct (f (k, x)) as [v|issues] eqn:E; [|discriminate].
  cbn in Hall. pose proof (Hf _ _ E) as Hv. cbn in Hv. subst v.
  now rewrite (IH Hall).
Qed.

(** What a schema with no object shape inside makes of a value it
    accepts. *)
Lemma shapeless_parse (t : ZodType) :
  shapeless t = true ->
  forall path data value,
    zparse async t path data = Valid value -> value = kept async t data.
Proof.
  induction t as [ | | | |values|element IH|valueType IH|shape IH|inner IH]
    using ZodType_shape_ind; intros Hk path data value H;
    cbn [shapeless] in Hk; try discriminate.
  - now injection H.
  - destruct data; try discriminate. now injection H.
  - cbn in H. destruct (getParsedType data); try discriminate.
    now injection H.
  - destruct data; try discriminate. now injection H.
  - destruct data as [| | | |s| |]; try discriminate. cbn in H.
    destruct (existsb (String.eqb s) values); [|discriminate].
    now injection H.
  - destruct data; try discriminate. cbn [zparse] in H.
    unfold mergeArray in H.
    destruct (forallb isValid _) eqn:Hall; [|discriminate].
    injection H as <-. cbn [kept]. f_equal.
    apply finalArray_imap; [|exact Hall].
    intros i x v Hv. exact (IH Hk _ _ _ Hv).
  - destruct data; try discriminate. cbn [zparse] in H.
    pose proof (isValid_mergeObject
                  (map (fun kv =>
                          mkPair (fst kv) (negb async)
                            (zparse async valueType (path ++ [PKey (fst kv)])
                               (snd kv))) props)) as HV.
    rewrite H, map_map in HV. cbn [pair_result isValid] in HV.
    unfold mergeObject in H.
    destruct (forallb _ _); [|discriminate].
    injection H as <-. cbn [kept]. f_equal.
    apply (finalObject_record (kept async valueType) props
             (fun kv =>
                zparse async valueType (path ++ [PKey (fst kv)]) (snd kv))).
    + intros kv v Hv. exact (IH Hk _ _ _ Hv).
    + now symmetry.
  - destruct data; cbn [zparse kept] in H |- *;
      [injection H as <-; now rewrite kept_undefined|..];
      exact (IH Hk _ _ _ H).
Qed.

Lemma mergeArray_valid (items : list JsVal) :
  mergeArray (map Valid items) = Valid (VArray items).
Proof.
  unfold mergeArray.
  replace (forallb isValid (map Valid items)) with true
    by (induction items; cbn; auto).
  do 2 f_equal. induction items as [|x rest IH]; cbn; [|rewrite IH]; auto.
Qed.

Lemma reparse_array (items : list JsVal) :
  forall f g : nat -> JsVal -> ParseReturn,
    (forall i x v, f i x = Valid v -> forall j, g j v = Valid v) ->
    forallb isValid (imap f items) = true ->
    imap g (finalArray (imap f items))
    = map Valid (finalArray (imap f items)).
Proof.
  induction items as [|x rest IH]; intros f g Hf Hall; [reflexivity|].
  cbn in *. destruct (f 0 x) as [v|issues] eqn:E; [|discriminate].
  cbn in Hall |- *. rewrite (Hf _ _ _ E). f_equal.
  apply IH; [|exact Hall]. intros i y w Hw j. exact (Hf _ _ _ Hw _).
Qed.

Lemma reparse_record (props : list (string * JsVal))
    (f g : string * JsVal -> ParseReturn) :
  (forall kv v, f kv = Valid v -> g (fst kv, v) = Valid v) ->
  forallb isValid (map f props) = true ->
  let out :=
    finalObject (map (fun kv => mkPair (fst kv) (negb async) (f kv)) props) in
  mergeObject (map (fun kv => mkPair (fst kv) (negb async) (g kv)) out)
  = Valid (VObject out).
Proof.
  intros Hf Hall out.
  assert (H : forallb (fun p => isValid (pair_result p))
                (map (fun kv => mkPair (fst kv) (negb async) (g kv)) out)
              = true /\
              finalObject
                (map (fun kv => mkPair (fst kv) (negb async) (g kv)) out)
              = out).
  { subst out. induction props as [|[k x] rest IH]; [now split|].
    cbn in Hall |- *. destruct (f (k, x)) as [v|issues] eqn:E; [|discriminate].
    cbn in Hall. destruct (IH Hall) as [IHv IHo].
    destruct (negb (k =? "__proto__")%string
              && (negb (isUndefined v) || negb async)) eqn:Hkeep;
      [|now split].
    pose proof (Hf _ _ E) as Hg. cbn [fst] in Hg.
    cbn. rewrite Hg. cbn. rewrite Hkeep, IHv, IHo. now split. }
  destruct H as [Hv Ho]. unfold mergeObject. now rewrite Hv, Ho.
Qed.

(** What a schema with no object shape inside hands back, it accepts
    again and hands back unchanged, wherever the value stands. *)
Lemma shapeless_reparse (t : ZodType) :
  shapeless t = true ->
  forall path data value,
    zparse async t path data = Valid value ->
    forall path', zparse async t path' value = Valid value.
Proof.
  induction t as [ | | | |values|element IH|valueType IH|shape IH|inner IH]
    using ZodType_shape_ind; intros Hk path data value H path';
    cbn [shapeless] in Hk; try discriminate.
  - reflexivity.
  - destruct data; try discriminate. now injection H as <-.
  - cbn in H |- *. destruct (getParsedType data) eqn:E; try discriminate.
    injection H as <-. now rewrite E.
  - destruct data; try discriminate. now injection H as <-.
  - destruct data as [| | | |s| |]; try discriminate. cbn in H.
    destruct (existsb (String.eqb s) values) eqn:E; [|discriminate].
    injection H as <-. cbn. now rewrite E.
  - destruct data; try discriminate. cbn [zparse] in H.
    unfold mergeArray in H.
    destruct (forallb isValid _) eqn:Hall; [|discriminate].
    injection H as <-. cbn [zparse].
    rewrite (reparse_array items
               (fun i x => zparse async element (path ++ [PIndex i]) x)
               (fun i x => zparse async element (path' ++ [PIndex i]) x));
      [apply mergeArray_valid| |exact Hall].
    intros i x v Hv j. exact (IH Hk _ _ _ Hv _).
  - destruct data; try discriminate. cbn [zparse] in H.
    pose proof (isValid_mergeObject
                  (map (fun kv =>
                          mkPair (fst kv) (negb async)
                            (zparse async valueType (path ++ [PKey (fst kv)])
                               (snd kv))) props)) as HV.
    rewrite H, map_map in HV. cbn [pair_result isValid] in HV.
    unfold mergeObject in H.
    destruct (forallb _ _); [|discriminate].
    injection H as <-. cbn [zparse].
    apply (reparse_record props
             (fun kv =>
                zparse async valueType (path ++ [PKey (fst kv)]) (snd kv))
             (fun kv =>
                zparse async valueType (path' ++ [PKey (fst kv)]) (snd kv))).
    + intros kv v Hv. cbn [fst snd]. exact (IH Hk _ _ _ Hv _).
    + now symmetry.
  - destruct data; cbn [zparse] in H;
      [injection H as <-; reflexivity|..];
      (destruct value; [reflexivity|..]; exact (IH Hk _ _ _ H _)).
Qed.

(** The members of an object that a shape of such members accepts. *)
Lemma members_kept (shape : list (string * ZodType))
    (path : list PathSegment) (props : list (string * JsVal)) :
  forallb (fun field => shapeless (snd field)) shape = true ->
  forallb isValid (map pair_result (parseMembers async shape path props))
  = true ->
  parseMembers async shape path props = keptPairs async shape props.
Proof.
  induction shape as [|[key fieldType] rest IH]; intros Hk Hall;
    [reflexivity|].
  cbn in Hk, Hall |- *. apply andb_prop in Hk as [Hk Hrest].
  destruct (zparse async fieldType (path ++ [PKey key]) (getProp props key))
    as [v|issues] eqn:E; [|discriminate].
  cbn in Hall. rewrite (shapeless_parse _ Hk _ _ _ E).
  f_equal. exact (IH Hrest Hall).
Qed.

Lemma finalObject_keptPairs (shape : list (string * ZodType))
    (props : list (string * JsVal)) :
  finalObject (keptPairs async shape props) = keptMembers async shape props.
Proof.
  induction shape as [|[key fieldType] rest IH]; [reflexivity|].
  cbn. fold (keptPairs async rest props). rewrite IH.
  destruct (hasProp props key) eqn:Hkey;
    [now rewrite orb_true_r|].
  rewrite (getProp_missing _ _ Hkey), kept_undefined. cbn.
  now rewrite andb_false_r.
Qed.

Lemma keptPairs_valid (shape : list (string * ZodType))
    (props : list (string * JsVal)) :
  mergeObject (keptPairs async shape props)
  = Valid (VObject (keptMembers async shape props)).
Proof.
  unfold mergeObject. rewrite finalObject_keptPairs.
  replace (forallb _ (keptPairs async shape props)) with true;
    [reflexivity|].
  induction shape; cbn; auto.
Qed.

(** The value an object schema of such members produces. *)
Lemma object_parse_kept (shape : list (string * ZodType))
    (path : list PathSegment) (props : list (string * JsVal))
    (value : JsVal) :
  forallb (fun field => shapeless (snd field)) shape = true ->
  zparse async (ZObject shape) path (VObject props) = Valid value ->
  value = VObject (keptMembers async shape props).
Proof.
  intros Hk. rewrite zparse_object. intros H.
  pose proof (isValid_mergeObject (parseMembers async shape path props)) as HV.
  rewrite H in HV. cbn [isValid] in HV.
  rewrite (members_kept _ _ _ Hk (eq_sym HV)), keptPairs_valid in H.
  now injection H.
Qed.

Lemma existsb_eqb_false (key : string) (keys : list string) :
  existsb (String.eqb key) keys = false -> ~ In key keys.
Proof.
  intros H Hin. assert (existsb (String.eqb key) keys = true); [|congruence].
  apply existsb_exists. exists key. split; [exact Hin|apply String.eqb_refl].
Qed.

Lemma keptMembers_absent (shape : list (string * ZodType))
    (props : list (string * JsVal)) (key : string) :
  ~ In key (map fst shape) ->
  hasProp (keptMembers async shape props) key = false /\
  getProp (keptMembers async shape props) key = VUndefined.
Proof.
  induction shape as [|[k t] rest IH]; intros Hno; [now split|].
  cbn in Hno |- *.
  assert (Hrest : ~ In key (map fst rest)) by tauto.
  destruct (negb (k =? "__proto__")%string && hasProp props k);
    [|exact (IH Hrest)].
  cbn. destruct (String.eqb k key) eqn:E; [|exact (IH Hrest)].
  apply String.eqb_eq in E. tauto.
Qed.

(** Reading a declared key of the object a shape produced. *)
Lemma keptMembers_lookup (shape : list (string * ZodType))
    (props : list (string * JsVal)) (key : string) (t : ZodType) :
  wellKeyed shape = true ->
  In (key, t) shape ->
  hasProp (keptMembers async shape props) key = hasProp props key /\
  getProp (keptMembers async shape props) key
  = kept async t (getProp props key).
Proof.
  unfold wellKeyed. intros Hw. apply andb_prop in Hw as [Hd Hp].
  induction shape as [|[k t0] rest IH]; intros Hin; [contradiction|].
  cbn in Hd, Hp |- *. apply andb_prop in Hd as [Hk Hd].
  apply andb_prop in Hp as [Hkp Hp]. rewrite Hkp. cbn [andb].
  apply negb_true_iff, existsb_eqb_false in Hk.
  destruct Hin as [Heq|Hin].
  - injection Heq as -> ->.
    destruct (hasProp props key) eqn:Hkey.
    + cbn. now rewrite String.eqb_refl.
    + rewrite (getProp_missing _ _ Hkey), kept_undefined.
      exact (keptMembers_absent rest props key Hk).
  - assert (Hne : String.eqb k key = false).
    { apply String.eqb_neq. intros ->. apply Hk.
      apply in_map_iff. now exists (key, t). }
    destruct (hasProp props k); [cbn; rewrite Hne|]; exact (IH Hd Hp Hin).
Qed.

Lemma member_valid (shape : list (string * ZodType))
    (path : list PathSegment) (props : list (string * JsVal))
    (field : string * ZodType) :
  forallb isValid (map pair_result (parseMembers async shape path props))
  = true ->
  In field shape ->
  isValid (zparse async (snd field) (path ++ [PKey (fst field)])
             (getProp props (fst field))) = true.
Proof.
  intros Hall Hin. rewrite forallb_forall in Hall. apply Hall.
  unfold parseMembers. rewrite map_map. cbn [pair_result].
  apply in_map_iff. now exists field.
Qed.

(** The object a shape produced, the shape accepts again and hands
    back unchanged. *)
Lemma object_reparse (shape : list (string * ZodType))
    (path path' : list PathSegment) (data value : JsVal) :
  wellKeyed shape = true ->
  forallb (fun field => shapeless (snd field)) shape = true ->
  zparse async (ZObject shape) path data = Valid value ->
  zparse async (ZObject shape) path' value = Valid value.
Proof.
  intros Hw Hk H. destruct data; try discriminate.
  pose proof (object_parse_kept _ _ _ _ Hk H) as ->.
  rewrite zparse_object in H |- *.
  pose proof (isValid_mergeObject (parseMembers async shape path props)) as HV.
  rewrite H in HV. cbn [isValid] in HV. symmetry in HV.
  replace (parseMembers async shape path' (keptMembers async shape props))
    with (keptPairs async shape props); [apply keptPairs_valid|].
  unfold parseMembers, keptPairs. apply map_ext_in. intros [key t] Hin.
  cbn [fst snd].
  destruct (keptMembers_lookup shape props key t Hw Hin) as [-> ->].
  f_equal. symmetry.
  pose proof (member_valid _ _ _ _ HV Hin) as Hm. cbn [fst snd] in Hm.
  rewrite forallb_forall in Hk. specialize (Hk _ Hin). cbn [snd] in Hk.
  destruct (zparse async t (path ++ [PKey key]) (getProp props key))
    as [v|issues] eqn:E; [|discriminate].
  rewrite <- (shapeless_parse _ Hk _ _ _ E).
  exact (shapeless_reparse _ Hk _ _ _ E _).
Qed.

Lemma shapes_are_shapeless (op : Operation) :
  forallb (fun field => shapeless (snd field))
    (shapeOf (proc_input (procedure op))) = true.
Proof. destruct op; reflexivity. Qed.

Lemma shapes_are_wellKeyed (op : Operation) :
  wellKeyed (shapeOf (proc_input (procedure op))) = true.
Proof. destruct op; reflexivity. Qed.

Lemma zparse_input_object (op : Operation) (props : list (string * JsVal)) :
  zparse async (proc_input (procedure op)) [] (VObject props)
  = zparse async (ZObject (shapeOf (proc_input (procedure op)))) []
      (VObject props).
Proof. destruct op; reflexivity. Qed.

(** What each schema makes of an object it accepts. *)
Lemma validated_object (op : Operation) (props : list (string * JsVal))
    (input : JsVal) :
  zparse async (proc_input (procedure op)) [] (VObject props) = Valid input ->
  input
  = VObject (keptMembers async (shapeOf (proc_input (procedure op))) props).
Proof.
  rewrite zparse_input_object.
  apply object_parse_kept, shapes_are_shapeless.
Qed.

End ForwardingFacts.

Section CallFacts.

Variable connect : string -> MarketSDK.t.

Lemma callAs_refused (user : string) (op : Operation) (raw : JsVal)
    (w : World) (issues : list ZodIssue) :
  parseAsync (proc_input (procedure op)) raw = Invalid issues ->
  callAs connect user (procedure op) raw w
  = (w, Rejected (newTRPCErrorCausedBy (zodError issues) BAD_REQUEST)).
Proof. intros H. unfold callAs. exact (runValidated_invalid _ _ _ _ _ H). Qed.

Lemma callAs_calls (user : string) (op : Operation) (raw input arg : JsVal)
    (w : World) :
  parseAsync (proc_input (procedure op)) raw = Valid input ->
  argumentOf op input = Fulfilled arg ->
  sdkCalls (fst (callAs connect user (procedure op) raw w))
  = (sdkCalls w ++ [mkCall (gatewayMethodName op) [arg]])%list.
Proof.
  intros Hvalid Harg. unfold callAs.
  rewrite (runValidated_valid _ _ _ _ _ Hvalid), resolver_settles.
  unfold settles. rewrite Harg.
  now destruct (gatewayMethod op _ arg (catalog w)) as [c [v|e]].
Qed.

Lemma accepted_parseAsync (op : Operation) (raw : JsVal) :
  isValid (parseAsync (proc_input (procedure op)) raw) = accepted op raw.
Proof. apply parseAsync_isValid. Qed.

Lemma accepted_valid (op : Operation) (raw : JsVal) :
  accepted op raw = true ->
  exists input, parseAsync (proc_input (procedure op)) raw = Valid input.
Proof.
  rewrite <- accepted_parseAsync.
  destruct (parseAsync (proc_input (procedure op)) raw); [eauto|discriminate].
Qed.

Lemma refused_invalid (op : Operation) (raw : JsVal) :
  accepted op raw = false ->
  exists issues, parseAsync (proc_input (procedure op)) raw = Invalid issues.
Proof.
  rewrite <- accepted_parseAsync.
  destruct (parseAsync (proc_input (procedure op)) raw); [discriminate|eauto].
Qed.

End CallFacts.

Lemma keptMembers_keys (async : bool) (shape : list (string * ZodType))
    (props : list (string * JsVal)) (key : string) :
  In key (map fst (keptMembers async shape props)) ->
  In key (map fst shape) /\ hasProp props key = true.
Proof.
  induction shape as [|[k t] rest IH]; [contradiction|].
  cbn. destruct (hasProp props k) eqn:Hk.
  - destruct (negb (k =? "__proto__")%string); cbn.
    + intros [<-|Hin]; [now split; [left|]|].
      destruct (IH Hin). now split; [right|].
    + intros Hin. destruct (IH Hin). now split; [right|].
  - rewrite andb_false_r. intros Hin. destruct (IH Hin). now split; [right|].
Qed.

Lemma identifierSchema_valid (async : bool) (raw : JsVal) :
  isValid (zparse async identifierSchema [] raw)
  = match identifierOf raw with Some _ => true | None => false end.
Proof.
  destruct raw; try reflexivity.
  unfold identifierSchema, identifierOf.
  rewrite zparse_object, isValid_mergeObject. cbn.
  rewrite andb_true_r. now destruct (getProp props "identifier").
Qed.

Lemma valid_record_any (async : bool) (p : list PathSegment) (v : JsVal) :
  isValid (zparse async (ZRecord ZAny) p v) = isObject v.
Proof.
  destruct v; try reflexivity. cbn [zparse].
  rewrite isValid_mergeObject, map_map. cbn.
  induction props as [|kv rest IH]; [reflexivity|exact IH].
Qed.

Lemma valid_array_of (async : bool) (element : ZodType)
    (check : JsVal -> bool) :
  (forall p x, isValid (zparse async element p x) = check x) ->
  forall p v, isValid (zparse async (ZArray element) p v) = isArrayOf check v.
Proof.
  intros H p v. destruct v; try reflexivity. cbn [zparse isArrayOf].
  unfold mergeArray.
  assert (Hall : forall f : nat -> JsVal -> ParseReturn,
             (forall i x, isValid (f i x) = check x) ->
             forallb isValid (imap f items) = forallb check items).
  { induction items as [|x rest IH]; intros f Hf; [reflexivity|].
    cbn. rewrite Hf. f_equal. apply IH. intros i y. apply Hf. }
  rewrite (Hall _ (fun i x => H _ x)).
  now destruct (forallb check items).
Qed.

Lemma pagination_valid (raw : JsVal) :
  accepted OpGetOwnAgents raw = paginationAccepts raw.
Proof.
  destruct raw; try reflexivity.
  unfold accepted, safeParse. cbn [procedure getOwnAgents proc_input zparse].
  unfold paginationSchema. rewrite zparse_object, isValid_mergeObject.
  unfold parseMembers, paginationAccepts.
  cbn [map forallb fst snd pair_result app].
  rewrite !valid_optional.
  rewrite !(absentOr_ext _ _ _ (valid_number _ _)).
  now rewrite andb_true_r.
Qed.

(** X9: an input that is no object (no input at all, [null], a text, a
    number, a list) is refused by every operation with the single issue
    that an object was expected, reported at the root; the one
    exception is [getOwnAgents], which accepts a call without input. *)
Theorem input_must_be_an_object (op : Operation) (raw : JsVal) :
  isObject raw = false ->
  safeParse (proc_input (procedure op)) raw
  = match op, raw with
    | OpGetOwnAgents, VUndefined => Valid VUndefined
    | _, _ => Invalid [invalidType "object" raw []]
    end.
Proof. intros H. destruct op, raw; try discriminate; reflexivity. Qed.

Lemma input_must_be_an_object_witness :
  isObject VNull = false /\
  safeParse (proc_input (procedure OpGetOwnAgents)) VNull
  = Invalid [mkIssue (TypeMismatch "object" "null") []
               "Expected object, received null"].
Proof.
  split; [reflexivity|].
  exact (input_must_be_an_object OpGetOwnAgents VNull eq_refl).
Defined.

(** X1: validation is idempotent: the input a schema produced passes
    the same schema again and comes out unchanged, for every
    operation, whether the schema is run by [parse] or by
    [parseAsync]. *)
Theorem validation_is_idempotent (async : bool) (op : Operation)
    (raw input : JsVal) :
  zparse async (proc_input (procedure op)) [] raw = Valid input ->
  zparse async (proc_input (procedure op)) [] input = Valid input.
Proof.
  intros H. destruct (isObject raw) eqn:Hobj.
  - destruct raw; try discriminate.
    rewrite zparse_input_object in H.
    destruct (valid_object_is_object _ _ _ _ _ H) as [out ->].
    rewrite zparse_input_object.
    exact (object_reparse async _ _ _ _ _ (shapes_are_wellKeyed op)
             (shapes_are_shapeless op) H).
  - destruct op, raw; try discriminate; injection H as <-; reflexivity.
Qed.

Lemma validation_is_idempotent_witness :
  let raw :=
    VObject [("note", VString "x"); ("identifier", VString "a1");
             ("config",
              VObject [("theme", VString "dark"); ("draft", VUndefined)]);
             ("name", VUndefined)] in
  let input :=
    VObject [("config", VObject [("theme", VString "dark")]);
             ("identifier", VString "a1"); ("name", VUndefined)] in
  parseAsync (proc_input (procedure OpCreateAgentVersion)) raw = Valid input /\
  parseAsync (proc_input (procedure OpCreateAgentVersion)) input
  = Valid input.
Proof.
  cbv zeta. split; [reflexivity|].
  apply (validation_is_idempotent true OpCreateAgentVersion
           (VObject [("note", VString "x"); ("identifier", VString "a1");
                     ("config",
                      VObject [("theme", VString "dark");
                               ("draft", VUndefined)]);
                     ("name", VUndefined)])).
  reflexivity.
Defined.

(** X2: [createAgent] and [createAgentVersion] hand the gateway what
    [parseAsync] makes of the accepted object.  Its keys are declared
    keys that the raw input has, so an undeclared key never reaches the
    gateway, and they come in schema order.  A declared member whose
    schema holds no record (a text, a number, a boolean, a list of
    texts) arrives with the value it had.  A member with a record
    inside ([config], [securitySchemes], the lists of objects) arrives
    with each record stripped of the entries whose value is [undefined]
    and of an entry named [__proto__]. *)
Theorem create_forwards_declared_fields (connect : string -> MarketSDK.t)
    (op : Operation) (user : string) (props : list (string * JsVal))
    (w : World) :
  forwardsInput op = true ->
  accepted op (VObject props) = true ->
  let shape := shapeOf (proc_input (procedure op)) in
  sdkCalls (fst (callAs connect user (procedure op) (VObject props) w))
  = (sdkCalls w
     ++ [mkCall (gatewayMethodName op)
           [VObject (keptMembers true shape props)]])%list /\
  (forall key, In key (map fst (keptMembers true shape props)) ->
               In key (declaredKeys op) /\ hasProp props key = true) /\
  (forall key t, In (key, t) shape ->
                 hasProp (keptMembers true shape props) key
                 = hasProp props key /\
                 getProp (keptMembers true shape props) key
                 = kept true t (getProp props key)) /\
  (forall key t, In (key, t) shape -> recordFree t = true ->
                 getProp (keptMembers true shape props) key
                 = getProp props key).
Proof.
  intros Hop Hacc shape. subst shape.
  apply accepted_valid in Hacc as [input Hvalid].
  pose proof (validated_object true _ _ _ Hvalid) as ->.
  split; [|split; [|split]].
  - apply (callAs_calls _ _ _ _ _ _ _ Hvalid).
    destruct op; try discriminate; reflexivity.
  - intros key Hin. exact (keptMembers_keys _ _ _ _ Hin).
  - intros key t Hin.
    exact (keptMembers_lookup true _ props key t (shapes_are_wellKeyed op) Hin).
  - intros key t Hin Hfree.
    rewrite (proj2 (keptMembers_lookup true _ props key t
                      (shapes_are_wellKeyed op) Hin)).
    now apply kept_recordFree.
Qed.

Lemma create_forwards_declared_fields_witness :
  let props :=
    [("admin", VBool true); ("identifier", VString "a1");
     ("config",
      VObject [("theme", VString "dark"); ("draft", VUndefined);
               ("__proto__", VObject [("polluted", VBool true)])]);
     ("defaultInputModes", VArray [VString "text"])] in
  (forwardsInput OpCreateAgentVersion = true /\
   accepted OpCreateAgentVersion (VObject props) = true) /\
  sdkCalls (fst (callAs ReferenceGateway.sdk "alice"
                   (procedure OpCreateAgentVersion) (VObject props)
                   emptyWorld))
  = [mkCall "createAgentVersion"
       [VObject [("config", VObject [("theme", VString "dark")]);
                 ("defaultInputModes", VArray [VString "text"]);
                 ("identifier", VString "a1")]]].
Proof.
  cbv zeta. split; [split; reflexivity|].
  exact (proj1 (create_forwards_declared_fields ReferenceGateway.sdk
                  OpCreateAgentVersion "alice"
                  [("admin", VBool true); ("identifier", VString "a1");
                   ("config",
                    VObject [("theme", VString "dark"); ("draft", VUndefined);
                             ("__proto__",
                              VObject [("polluted", VBool true)])]);
                   ("defaultInputModes", VArray [VString "text"])]
                  emptyWorld eq_refl eq_refl)).
Defined.

(** [createAgent] declares no record: what it accepts reaches the
    gateway cut down to the declared keys, each with the value it
    had. *)
Example createAgent_forwards_values :
  sdkCalls (fst (callAs ReferenceGateway.sdk "alice" (procedure OpCreateAgent)
                   (VObject [("admin", VBool true); ("name", VString "Test");
                             ("identifier", VString "a1")])
                   emptyWorld))
  = [mkCall "createAgent"
       [VObject [("identifier", VString "a1"); ("name", VString "Test")]]] /\
  forallb (fun field => recordFree (snd field))
    (shapeOf (proc_input (procedure OpCreateAgent))) = true.
Proof. split; reflexivity. Qed.

(** X3: the four operations that take an identifier ([deprecateAgent],
    [getAgentDetail], [publishAgent], [unpublishAgent]) reach the
    gateway exactly when the raw input is an object whose [identifier]
    is a string, and then pass that string alone, unaltered (the empty
    string included); otherwise they fail with [BAD_REQUEST] and leave
    the world as it was. *)
Theorem identifier_operations_forward_the_identifier
    (connect : string -> MarketSDK.t) (op : Operation) (user : string)
    (raw : JsVal) (w : World) :
  readsIdentifier op = true ->
  match identifierOf raw with
  | Some identifier =>
      sdkCalls (fst (callAs connect user (procedure op) raw w))
      = (sdkCalls w
         ++ [mkCall (gatewayMethodName op) [VString identifier]])%list
  | None =>
      exists err,
        callAs connect user (procedure op) raw w = (w, Rejected err) /\
        code err = BAD_REQUEST
  end.
Proof.
  intros Hop.
  assert (Hschema : proc_input (procedure op) = identifierSchema)
    by (destruct op; try discriminate; reflexivity).
  pose proof (identifierSchema_valid true raw) as HV.
  fold (parseAsync identifierSchema raw) in HV.
  destruct (identifierOf raw) as [identifier|] eqn:Hid.
  - assert (Hraw : optChain raw "identifier" = VString identifier).
    { unfold identifierOf in Hid. destruct raw; try discriminate. cbn.
      destruct (getProp props "identifier"); try discriminate.
      now injection Hid as ->. }
    apply (callAs_calls _ _ _ _ (identifierInput identifier)).
    + rewrite Hschema. exact (identifierSchema_parse true _ _ Hraw).
    + destruct op; try discriminate; reflexivity.
  - destruct (parseAsync identifierSchema raw) as [v|issues] eqn:E;
      [discriminate|].
    rewrite <- Hschema in E. rewrite (callAs_refused _ _ _ _ _ _ E). eauto.
Qed.

Lemma identifier_operations_forward_the_identifier_witness :
  readsIdentifier OpGetAgentDetail = true /\
  sdkCalls (fst (callAs ReferenceGateway.sdk "alice"
                   (procedure OpGetAgentDetail)
                   (VObject [("identifier", VString ""); ("page", VNull)])
                   emptyWorld))
  = [mkCall "getAgentDetail" [VString ""]].
Proof.
  split; [reflexivity|].
  exact (identifier_operations_forward_the_identifier ReferenceGateway.sdk
           OpGetAgentDetail "alice"
           (VObject [("identifier", VString ""); ("page", VNull)])
           emptyWorld eq_refl).
Defined.

(** X4: [getOwnAgents] accepts a call without input, and an object
    whose [page] and [pageSize] are each absent or a number other than
    [NaN]; it puts no bound on the numbers (zero, negative, fractional
    and infinite values pass) and refuses everything else, [null]
    included. *)
Theorem getOwnAgents_validation (raw : JsVal) (x : spec_float) :
  accepted OpGetOwnAgents raw = paginationAccepts raw /\
  accepted OpGetOwnAgents (VObject [("page", VNumber x)])
  = match x with S754_nan => false | _ => true end /\
  accepted OpGetOwnAgents VNull = false.
Proof.
  split; [apply pagination_valid|]. split; [|reflexivity].
  rewrite pagination_valid. now destruct x.
Qed.

(** X5: whatever input [getOwnAgents] accepts, the gateway receives an
    object with exactly the two keys [page] and [pageSize], holding the
    values of the raw input ([undefined] when the key or the whole
    input is absent); no other key of the input is passed on. *)
Theorem getOwnAgents_forwards_page_and_pageSize
    (connect : string -> MarketSDK.t) (user : string) (raw : JsVal)
    (w : World) :
  accepted OpGetOwnAgents raw = true ->
  sdkCalls (fst (callAs connect user getOwnAgents raw w))
  = (sdkCalls w
     ++ [mkCall "getOwnAgents"
           [VObject [("page", optChain raw "page");
                     ("pageSize", optChain raw "pageSize")]]])%list /\
  absentOr isNumber (optChain raw "page") = true /\
  absentOr isNumber (optChain raw "pageSize") = true.
Proof.
  intros Hacc. pose proof Hacc as Hpag. rewrite pagination_valid in Hpag.
  apply accepted_valid in Hacc as [input Hvalid]. split.
  - change getOwnAgents with (procedure OpGetOwnAgents).
    apply (callAs_calls _ _ _ _ _ _ _ Hvalid). cbn [argumentOf].
    destruct raw; try discriminate.
    + cbn in Hvalid. now injection Hvalid as <-.
    + rewrite (validated_object true _ _ _ Hvalid). cbn [optChain].
      now rewrite (proj2 (keptMembers_lookup true
                            (shapeOf (proc_input (procedure OpGetOwnAgents)))
                            props "page" (ZOptional ZNumber) eq_refl
                            (or_introl eq_refl))),
        (proj2 (keptMembers_lookup true
                  (shapeOf (proc_input (procedure OpGetOwnAgents)))
                  props "pageSize" (ZOptional ZNumber) eq_refl
                  (or_intror (or_introl eq_refl)))).
  - destruct raw; try discriminate; [now split|].
    cbn in Hpag |- *. now apply andb_prop in Hpag.
Qed.

Lemma getOwnAgents_forwards_page_and_pageSize_witness :
  let raw :=
    VObject [("pageSize", VNumber (S754_finite false 5 2));
             ("cursor", VString "abc")] in
  accepted OpGetOwnAgents raw = true /\
  sdkCalls (fst (callAs ReferenceGateway.sdk "alice" getOwnAgents raw
                   emptyWorld))
  = [mkCall "getOwnAgents"
       [VObject [("page", VUndefined);
                 ("pageSize", VNumber (S754_finite false 5 2))]]].
Proof.
  cbv zeta. split; [reflexivity|].
  exact (proj1 (getOwnAgents_forwards_page_and_pageSize ReferenceGateway.sdk
                  "alice"
                  (VObject [("pageSize", VNumber (S754_finite false 5 2));
                            ("cursor", VString "abc")])
                  emptyWorld eq_refl)).
Defined.

(** X6: [createAgentVersion] requires only [identifier]: it accepts an
    input exactly when it is an object whose [identifier] is a string
    and each of the twenty-four other declared members is absent or of
    its declared type (a text, a boolean, a number other than [NaN], an
    object for [config] and [securitySchemes], a list of texts for the
    input and output modes, a list of objects for [extensions],
    [interfaces] and [securityRequirements]). *)
Theorem createAgentVersion_validation (raw : JsVal) :
  accepted OpCreateAgentVersion raw = createAgentVersionAccepts raw /\
  accepted OpCreateAgentVersion (identifierInput "a1") = true.
Proof.
  split; [|reflexivity].
  destruct raw; try reflexivity.
  unfold accepted, safeParse.
  cbn [procedure createAgentVersion proc_input].
  unfold createAgentVersionSchema.
  rewrite zparse_object, isValid_mergeObject.
  unfold parseMembers, createAgentVersionAccepts, versionFields.
  cbn [map forallb fst snd pair_result app].
  rewrite !valid_optional, !valid_string.
  rewrite !(absentOr_ext _ _ _ (valid_string _ _)).
  rewrite !(absentOr_ext _ _ _ (valid_boolean _ _)).
  rewrite !(absentOr_ext _ _ _ (valid_number _ _)).
  rewrite !(absentOr_ext _ _ _ (valid_record_any _ _)).
  rewrite !(absentOr_ext _ _ _
              (valid_array_of _ ZString isString (valid_string _) _)).
  rewrite !(absentOr_ext _ _ _
              (valid_array_of _ (ZRecord ZAny) isObject
                 (valid_record_any _) _)).
  reflexivity.
Qed.

Lemma members_refuse_null (op : Operation) :
  forallb
    (fun field =>
       negb (isValid (zparse false (snd field) [PKey (fst field)] VNull)))
    (shapeOf (proc_input (procedure op))) = true.
Proof. destruct op; reflexivity. Qed.

(** X7: no declared member of any operation accepts [null]: an optional
    member may be left out, but an input that sets it to [null] is
    refused. *)
Theorem null_is_refused_for_every_member (op : Operation)
    (props : list (string * JsVal)) (key : string) :
  In key (declaredKeys op) ->
  getProp props key = VNull ->
  accepted op (VObject props) = false.
Proof.
  intros Hin Hnull. apply in_map_iff in Hin as [[k fieldType] [Hk Hin]].
  cbn in Hk. subst k.
  pose proof (members_refuse_null op) as Hall.
  rewrite forallb_forall in Hall. specialize (Hall _ Hin). cbn in Hall.
  destruct (zparse false fieldType [PKey key] VNull) as [v|sub] eqn:E;
    [discriminate|].
  rewrite <- Hnull in E.
  destruct (member_issues_kept _ _ [] props key fieldType sub Hin E)
    as [issues [Hparse _]].
  unfold accepted. now rewrite safeParse_object, Hparse.
Qed.

Lemma null_is_refused_for_every_member_witness :
  let props := [("identifier", VString "a1"); ("changelog", VNull)] in
  (In "changelog" (declaredKeys OpCreateAgentVersion) /\
   getProp props "changelog" = VNull) /\
  accepted OpCreateAgentVersion (VObject props) = false.
Proof.
  cbv zeta. split.
  - split; [|reflexivity]. cbn. tauto.
  - apply (null_is_refused_for_every_member OpCreateAgentVersion
             [("identifier", VString "a1"); ("changelog", VNull)]
             "changelog"); [cbn; tauto|reflexivity].
Defined.

(** X8: a required member (one declared as a plain text: [identifier]
    everywhere it occurs, and [name] of [createAgent]) that the input
    object does not have is reported with the reason [Required] at the
    member's own path. *)
Theorem missing_member_is_required (op : Operation)
    (props : list (string * JsVal)) (key : string) :
  In (key, ZString) (shapeOf (proc_input (procedure op))) ->
  hasProp props key = false ->
  exists issues,
    safeParse (proc_input (procedure op)) (VObject props) = Invalid issues /\
    In (mkIssue (TypeMismatch "string" "undefined") [PKey key] "Required")
      issues.
Proof.
  intros Hin Hno.
  assert (E : zparse false ZString [PKey key] (getProp props key)
              = Invalid [mkIssue (TypeMismatch "string" "undefined")
                           [PKey key] "Required"])
    by now rewrite (getProp_missing _ _ Hno).
  destruct (member_issues_kept _ _ [] props key ZString _ Hin E)
    as [issues [Hparse Hincl]].
  exists issues. rewrite safeParse_object. split; [exact Hparse|].
  apply Hincl. now left.
Qed.

Lemma missing_member_is_required_witness :
  (In ("identifier", ZString) (shapeOf (proc_input (procedure OpPublishAgent)))
   /\ hasProp [("id", VString "a1")] "identifier" = false) /\
  exists issues,
    safeParse (proc_input (procedure OpPublishAgent))
      (VObject [("id", VString "a1")])
    = Invalid issues /\
    In (mkIssue (TypeMismatch "string" "undefined") [PKey "identifier"]
          "Required") issues.
Proof.
  split.
  - split; [left; reflexivity|reflexivity].
  - apply (missing_member_is_required OpPublishAgent [("id", VString "a1")]
             "identifier"); [left; reflexivity|reflexivity].
Defined.

(** X10: a resolver settles as the gateway call it made settles: on an
    input its schema produced (by [parse] or by [parseAsync]) it
    fulfils exactly when the gateway fulfils, so a rejection of the
    gateway is never turned into a success and a success never into a
    failure. *)
Theorem resolver_settles_as_the_gateway (async : bool) (op : Operation)
    (raw input : JsVal) (ctx : Context) (w : World) :
  zparse async (proc_input (procedure op)) [] raw = Valid input ->
  exists arg,
    sdkCalls (fst (proc_resolver (procedure op) input ctx w))
    = (sdkCalls w ++ [mkCall (gatewayMethodName op) [arg]])%list /\
    isFulfilled (snd (proc_resolver (procedure op) input ctx w))
    = isFulfilled
        (snd (gatewayMethod op (MarketSDK.agents (marketSDK ctx)) arg
                (catalog w))).
Proof.
  intros Hvalid. destruct (validated_argument _ _ _ _ Hvalid) as [arg Harg].
  exists arg. rewrite resolver_settles. unfold settles. rewrite Harg.
  now destruct (gatewayMethod op _ arg (catalog w)) as [c [v|e]].
Qed.

Lemma resolver_settles_as_the_gateway_witness :
  let ctx :=
    StubGateway.context (Rejected (ThrownValue (VString "offline"))) in
  parseAsync (proc_input (procedure OpDeprecateAgent)) (identifierInput "a1")
  = Valid (identifierInput "a1") /\
  exists arg,
    sdkCalls (fst (proc_resolver (procedure OpDeprecateAgent)
                     (identifierInput "a1") ctx emptyWorld))
    = (sdkCalls emptyWorld
       ++ [mkCall (gatewayMethodName OpDeprecateAgent) [arg]])%list /\
    isFulfilled (snd (proc_resolver (procedure OpDeprecateAgent)
                        (identifierInput "a1") ctx emptyWorld))
    = isFulfilled
        (snd (gatewayMethod OpDeprecateAgent
                (MarketSDK.agents (marketSDK ctx)) arg (catalog emptyWorld))).
Proof.
  cbv zeta. split; [reflexivity|].
  exact (resolver_settles_as_the_gateway true OpDeprecateAgent
           (identifierInput "a1") (identifierInput "a1")
           (StubGateway.context (Rejected (ThrownValue (VString "offline"))))
           emptyWorld eq_refl).
Defined.

(** X11: what a resolver writes to the debug log, on an input its
    schema produced (by [parse] or by [parseAsync]): the input it was
    given, before the gateway call, and after a rejected call the value
    that was thrown; a successful response is never logged and earlier
    lines are kept. *)
Theorem resolver_log_lines (async : bool) (op : Operation)
    (raw input : JsVal) (ctx : Context) (w : World) :
  zparse async (proc_input (procedure op)) [] raw = Valid input ->
  exists arg,
    argumentOf op input = Fulfilled arg /\
    debugLog (fst (proc_resolver (procedure op) input ctx w))
    = (debugLog w
       ++ mkLine (inputLogFormat op) (LogValue input)
          :: match snd (gatewayMethod op (MarketSDK.agents (marketSDK ctx))
                          arg (catalog w)) with
             | Fulfilled _ => []
             | Rejected e => [mkLine (errorLogFormat op) (LogThrown e)]
             end)%list.
Proof.
  intros Hvalid. destruct (validated_argument _ _ _ _ Hvalid) as [arg Harg].
  exists arg. split; [exact Harg|].
  rewrite resolver_settles. unfold settles. rewrite Harg.
  destruct (gatewayMethod op _ arg (catalog w)) as [c [v|e]]; cbn;
    [reflexivity|].
  now rewrite <- app_assoc.
Qed.

Lemma resolver_log_lines_witness :
  let ctx := StubGateway.context (Fulfilled (VString "secret")) in
  parseAsync (proc_input (procedure OpPublishAgent))
    (VObject [("identifier", VString "a1"); ("token", VString "t")])
  = Valid (identifierInput "a1") /\
  debugLog (fst (proc_resolver (procedure OpPublishAgent)
                   (identifierInput "a1") ctx emptyWorld))
  = [mkLine "publishAgent input: %O" (LogValue (identifierInput "a1"))].
Proof.
  cbv zeta. split; [reflexivity|].
  destruct (resolver_log_lines true OpPublishAgent
              (VObject [("identifier", VString "a1"); ("token", VString "t")])
              (identifierInput "a1")
              (StubGateway.context (Fulfilled (VString "secret")))
              emptyWorld eq_refl) as [arg [Harg Hlog]].
  injection Harg as <-. exact Hlog.
Defined.

Lemma callAs_trace (connect : string -> MarketSDK.t) (user : string)
    (op : Operation) (raw : JsVal) (w : World) :
  exists step,
    sdkCalls (fst (callAs connect user (procedure op) raw w))
    = (sdkCalls w ++ step)%list /\
    map call_method step
    = if accepted op raw then [gatewayMethodName op] else [].
Proof.
  rewrite <- accepted_parseAsync.
  destruct (parseAsync (proc_input (procedure op)) raw) as [input|issues]
    eqn:E.
  - destruct (validated_argument _ _ _ _ E) as [arg Harg].
    exists [mkCall (gatewayMethodName op) [arg]]. split; [|reflexivity].
    exact (callAs_calls _ _ _ _ _ _ _ E Harg).
  - exists []. rewrite (callAs_refused _ _ _ _ _ _ E). cbn.
    now rewrite app_nil_r.
Qed.

(** X12: over a sequence of calls, the gateway sees one call for each
    call whose input its schema accepts, in the order the calls were
    made and each on the method of its operation; calls made earlier
    stay in the trace, and a refused call adds nothing. *)
Theorem calls_of_a_sequence (connect : string -> MarketSDK.t)
    (calls : list Invocation) (w : World) :
  exists added,
    sdkCalls (runAll connect calls w) = (sdkCalls w ++ added)%list /\
    map call_method added
    = map (fun call => gatewayMethodName (inv_op call))
        (List.filter (fun call => accepted (inv_op call) (inv_input call))
           calls).
Proof.
  revert w. induction calls as [|call rest IH]; intros w.
  - exists []. cbn. now rewrite app_nil_r.
  - cbn [runAll List.filter].
    destruct (callAs_trace connect (inv_user call) (inv_op call)
                (inv_input call) w) as [step [Hstep Hnames]].
    destruct (IH (fst (callAs connect (inv_user call)
                         (procedure (inv_op call)) (inv_input call) w)))
      as [more [Hmore Hrest]].
    exists (step ++ more)%list. split.
    + now rewrite Hmore, Hstep, app_assoc.
    + rewrite map_app, Hnames, Hrest.
      now destruct (accepted (inv_op call) (inv_input call)).
Qed.

Example calls_of_a_mixed_sequence :
  map call_method
    (sdkCalls
       (runAll ReferenceGateway.sdk
          [mkInvocation OpGetOwnAgents "alice" VUndefined;
           mkInvocation OpPublishAgent "alice" (VString "a1");
           mkInvocation OpCreateAgent "alice" (identifierInput "a1");
           mkInvocation OpDeprecateAgent "bob" (identifierInput "a1")]
          emptyWorld))
  = ["getOwnAgents"; "deprecate"].
Proof. reflexivity. Qed.

(** * Properties of the notebook's document views *)

Section NotebookFacts.

Import Notebook.

(** X13: the streaming view renders nothing until there is content (a
    missing [args], a missing or an empty [content]); once there is, it
    shows the title, when one is given and not empty, and then the
    content, and nothing else. *)
Theorem streaming_view_shows_title_then_content
    (args : option CreateDocumentArgs) :
  (if truthy (field args content)
   then CreateDocumentStreaming args <> RNothing
   else CreateDocumentStreaming args = RNothing) /\
  visibleText (CreateDocumentStreaming args)
  = if truthy (field args content)
    then (shown (field args title) ++ shown (field args content))%list
    else [].
Proof.
  unfold CreateDocumentStreaming.
  destruct (field args content) as [[|c rest]|]; cbn; try (now split).
  split; [discriminate|].
  now destruct (field args title) as [[|a more]|].
Qed.

Variable t : string -> JsString.

(** X14: the inspector counts the UTF-16 code units ([content.length])
    of [args.content] when it is there and not empty, and otherwise of
    [partialArgs.content]; it shows that count, once, exactly when it
    is positive, whether or not the arguments are still streaming. *)
Theorem inspector_shows_the_character_count (props : BuiltinInspectorProps) :
  inspectedContent props
  = match orElse (field (args props) content)
            (field (partialArgs props) content) with
    | Some s => s
    | None => []
    end /\
  shownNumbers (CreateDocumentInspector t props)
  = match length (inspectedContent props) with
    | 0 => []
    | S n => [S n]
    end.
Proof.
  split.
  - unfold inspectedContent, orElse.
    destruct (field (args props) content) as [[|c rest]|];
      destruct (field (partialArgs props) content) as [[|c' rest']|];
      reflexivity.
  - unfold CreateDocumentInspector.
    destruct (inspectedContent props) as [|c rest];
      destruct (isArgumentsStreaming props) as [[|]|]; reflexivity.
Qed.

(** A content of two Chinese characters and one emoji: three
    characters, ten bytes in UTF-8, and four code units, the emoji
    taking a surrogate pair. *)
Example inspector_counts_code_units :
  shownNumbers
    (CreateDocumentInspector t
       (mkInspectorProps
          (Some (mkArgs (Some [20320; 22909; 55357; 56832]%N) None))
          None None))
  = [4].
Proof. reflexivity. Qed.

End NotebookFacts.
